(** * A wiki server: pages stored as files, routed by path, cross-linked in the body

    Shallow embedding of the wiki program (package main: Page.save, loadPage,
    getAllPages, processLinks, the three page handlers, the index handlers and
    makeHandler) together with models of the library calls it makes:
    strings, path/filepath, os, regexp, html/template and net/http. The
    program is the version with the index page and the link transform;
    wiki.go, the version without them, has the same store functions, page
    handlers and route pattern.

    Go strings are byte sequences: they are [string] here (a sequence of
    [ascii], one per byte), and a [[]byte] is a [list byte]. *)

From stdpp Require Import gmap strings list sorting.
From Stdlib Require Strings.String Strings.Byte.
From Stdlib Require Import Strings.Ascii.

(* ===================================================================== *)
(** * Strings: slices and the few functions of package strings            *)
(* ===================================================================== *)

(** [s[:n]] *)
Fixpoint str_take (n : nat) (s : string) : string :=
  match n, s with
  | S k, String c s' => String c (str_take k s')
  | _, _ => ""
  end.

(** [s[n:]] *)
Fixpoint str_drop (n : nat) (s : string) : string :=
  match n, s with
  | S k, String _ s' => str_drop k s'
  | _, _ => s
  end.

(** Every byte of [s] satisfies [f]. *)
Fixpoint str_forall (f : ascii → bool) (s : string) : bool :=
  match s with
  | "" => true
  | String c s' => f c && str_forall f s'
  end.

(** No byte of [s] is the path separator. *)
Definition no_slash (s : string) : Prop :=
  str_forall (λ c, bool_decide (c ≠ "/"%char)) s = true.

Global Instance no_slash_dec s : Decision (no_slash s).
Proof. unfold no_slash. apply _. Defined.

(** No byte of [s] is the NUL byte, which ends a name for the system. *)
Definition no_nul (s : string) : Prop :=
  str_forall (λ c, bool_decide (c ≠ "000"%char)) s = true.

Global Instance no_nul_dec s : Decision (no_nul s).
Proof. unfold no_nul. apply _. Defined.

(** The double quote, which a literal cannot hold. *)
Definition dquote : string := String "034"%char "".

Module strings.

(** [strings.HasSuffix]:
    [len(s) >= len(suffix) && s[len(s)-len(suffix):] == suffix] *)
Definition HasSuffix (s suffix : string) : bool :=
  bool_decide (String.length suffix ≤ String.length s) &&
  bool_decide (str_drop (String.length s - String.length suffix) s = suffix).

(** [strings.TrimSuffix]: [s] without the trailing [suffix], or [s] itself. *)
Definition TrimSuffix (s suffix : string) : string :=
  if HasSuffix s suffix
  then str_take (String.length s - String.length suffix) s
  else s.

(** [strings.Join] *)
Fixpoint Join (elems : list string) (sep : string) : string :=
  match elems with
  | [] => ""
  | [e] => e
  | e :: rest => e +:+ sep +:+ Join rest sep
  end.

(** [strings.Split] on a one-byte separator: the pieces between separators. *)
Fixpoint Split (s : string) (sep : ascii) : list string :=
  match s with
  | "" => [""]
  | String c s' =>
      if decide (c = sep) then "" :: Split s' sep
      else match Split s' sep with
           | h :: t => String c h :: t
           | [] => [String c ""]
           end
  end.

End strings.

(* ===================================================================== *)
(** * Package regexp: syntax trees and a leftmost-first matcher           *)
(* ===================================================================== *)

(** The operators of regexp/syntax that the two patterns of the program use.
    Literals and classes of the patterns are ASCII, and '/', '[' and ']' never
    occur inside a multi-byte UTF-8 sequence, so matching byte by byte agrees
    with Go's matching rune by rune on them. *)
Module regexp.

Inductive Regexp : Type :=
| Literal (s : string)                 (* OpLiteral: the bytes of [s] *)
| CharClass (rs : list (ascii * ascii)) (* OpCharClass: inclusive ranges *)
| Concat (r1 r2 : Regexp)              (* OpConcat *)
| Alternate (r1 r2 : Regexp)           (* OpAlternate, left preferred *)
| Plus (r : Regexp)                    (* OpPlus, greedy *)
| Capture (i : nat) (r : Regexp)       (* OpCapture, group number i *)
| BeginText                            (* ^ *)
| EndText.                             (* $ (no multi-line flag) *)

(** A thread of the matcher: the offset reached, the input left, and the
    text of the groups closed so far (most recent first). *)
Record thread : Type := Thread {
  pos : nat;
  rest : string;
  caps : list (nat * string);
}.

Definition advance (k : nat) (t : thread) : thread :=
  Thread (pos t + k) (str_drop k (rest t)) (caps t).

Definition in_range (c : ascii) (r : ascii * ascii) : bool :=
  (nat_of_ascii r.1 <=? nat_of_ascii c) && (nat_of_ascii c <=? nat_of_ascii r.2).

Definition in_class (rs : list (ascii * ascii)) (c : ascii) : bool :=
  existsb (in_range c) rs.

(** One or more rounds of [step], more rounds preferred; a round that
    consumes nothing is not repeated, so [fuel] above the length of the input
    left is never used up. *)
Fixpoint plus_loop (step : thread → list thread) (fuel : nat) (t : thread)
  : list thread :=
  match fuel with
  | 0 => []
  | S k =>
      t' ← step t;
      (if decide (pos t < pos t') then plus_loop step k t' else []) ++ [t']
  end.

(** All ways [r] matches a prefix of the thread's input, in the order of
    preference of a backtracking search (Go's leftmost-first semantics). *)
Fixpoint run (r : Regexp) (t : thread) : list thread :=
  match r with
  | Literal s =>
      if String.prefix s (rest t) then [advance (String.length s) t] else []
  | CharClass rs =>
      match rest t with
      | String c _ => if in_class rs c then [advance 1 t] else []
      | "" => []
      end
  | Concat r1 r2 => t' ← run r1 t; run r2 t'
  | Alternate r1 r2 => run r1 t ++ run r2 t
  | Plus r1 => plus_loop (run r1) (S (String.length (rest t))) t
  | Capture i r1 =>
      (λ t', Thread (pos t') (rest t')
               ((i, str_take (pos t' - pos t) (rest t)) :: caps t'))
        <$> run r1 t
  | BeginText => if decide (pos t = 0) then [t] else []
  | EndText => match rest t with "" => [t] | String _ _ => [] end
  end.

(** [NumSubexp]: the number of parenthesised groups. *)
Fixpoint NumSubexp (r : Regexp) : nat :=
  match r with
  | Concat r1 r2 | Alternate r1 r2 => NumSubexp r1 + NumSubexp r2
  | Plus r1 => NumSubexp r1
  | Capture _ r1 => S (NumSubexp r1)
  | _ => 0
  end.

(** The text of group [i]; a group that took no part reads as [""]. *)
Fixpoint group (i : nat) (cs : list (nat * string)) : string :=
  match cs with
  | [] => ""
  | (j, s) :: cs' => if decide (i = j) then s else group i cs'
  end.

(** The leftmost match at or after offset [p], where [s] is the input from
    [p] on: the offset it starts at, the input from there, the final thread. *)
Fixpoint search (re : Regexp) (p : nat) (s : string)
  : option (nat * string * thread) :=
  match run re (Thread p s []) with
  | t :: _ => Some (p, s, t)
  | [] =>
      match s with
      | "" => None
      | String _ s' => search re (S p) s'
      end
  end.

(** [re.FindStringSubmatch(s)]: [None] is the nil slice of no match;
    otherwise element 0 is the matched text and element [i] is group [i]. *)
Definition FindStringSubmatch (re : Regexp) (s : string) : option (list string) :=
  '(p, s', t) ← search re 0 s;
  Some (str_take (pos t - p) s'
          :: ((λ i, group i (caps t)) <$> seq 1 (NumSubexp re))).

(** The loop of [re.ReplaceAllStringFunc]: [p] is the offset of [s] in the
    source and [last_end] the end of the previous match. The text between
    matches is copied; a match is replaced unless it is empty and directly
    follows the previous one; the search resumes at the end of a match and
    at least one byte further. *)
Fixpoint replace_loop (re : Regexp) (repl : string → string)
    (p last_end : nat) (s : string) : string :=
  let found :=
    if decide (p < last_end) then None else head (run re (Thread p s [])) in
  match found with
  | Some t =>
      let e := pos t in
      (if decide (last_end < e ∨ p = 0) then repl (str_take (e - p) s) else "")
      +:+ match s with
          | "" => ""
          | String c s' =>
              (if decide (p < e) then "" else String c "")
              +:+ replace_loop re repl (S p) e s'
          end
  | None =>
      match s with
      | "" => ""
      | String c s' =>
          (if decide (p < last_end) then "" else String c "")
          +:+ replace_loop re repl (S p) last_end s'
      end
  end.

Definition ReplaceAllStringFunc (re : Regexp) (src : string)
    (repl : string → string) : string :=
  replace_loop re repl 0 0 src.

End regexp.

Import regexp.

(** [[a-zA-Z0-9]] *)
Definition alnum_ranges : list (ascii * ascii) :=
  [("a", "z"); ("A", "Z"); ("0", "9")]%char.

Definition alnum : Regexp := CharClass alnum_ranges.

(** [regexp.MustCompile("^/(edit|save|view)/([a-zA-Z0-9]+)$")] *)
Definition validPath : Regexp :=
  Concat BeginText
    (Concat (Literal "/")
      (Concat (Capture 1 (Alternate (Literal "edit")
                            (Alternate (Literal "save") (Literal "view"))))
         (Concat (Literal "/")
            (Concat (Capture 2 (Plus alnum)) EndText)))).

(** [regexp.MustCompile(`\[([a-zA-Z0-9]+)\]`)] in processLinks *)
Definition linkPattern : Regexp :=
  Concat (Literal "[") (Concat (Capture 1 (Plus alnum)) (Literal "]")).

(* ===================================================================== *)
(** * Package path/filepath (slash-separated paths)                       *)
(* ===================================================================== *)

Module filepath.

(** The elements of a path that survive cleaning, innermost first in [out]:
    empty and "." elements are dropped, ".." removes the element before it,
    stays when there is none to remove, and is dropped at the root. *)
Fixpoint clean_elems (rooted : bool) (elems out : list string) : list string :=
  match elems with
  | [] => reverse out
  | e :: elems' =>
      if decide (e = "" ∨ e = ".") then clean_elems rooted elems' out
      else if decide (e = "..") then
        match out with
        | top :: out' =>
            if decide (top = "..") then clean_elems rooted elems' (".." :: out)
            else clean_elems rooted elems' out'
        | [] =>
            if rooted then clean_elems rooted elems' []
            else clean_elems rooted elems' [".."]
        end
      else clean_elems rooted elems' (e :: out)
  end.

(** [filepath.Clean]: the shortest path name equivalent to [path] by purely
    lexical processing. *)
Definition Clean (path : string) : string :=
  let rooted := String.prefix "/" path in
  let out := clean_elems rooted (strings.Split path "/") [] in
  if rooted then "/" +:+ strings.Join out "/"
  else if decide (out = []) then "." else strings.Join out "/".

(** [filepath.Join]: the elements from the first non-empty one on, joined by
    the separator and cleaned; [""] when every element is empty. *)
Fixpoint Join (elem : list string) : string :=
  match elem with
  | [] => ""
  | e :: elem' =>
      if decide (e = "") then Join elem' else Clean (strings.Join elem "/")
  end.

End filepath.

(* ===================================================================== *)
(** * Package os: files of the working directory                          *)
(* ===================================================================== *)

(** The file system is a finite map from cleaned path names, relative to the
    working directory of the process, to what is there. Every file and
    directory that exists is accessible to the process: permission bits are
    passed to the calls as in the program but decide nothing here. Every call
    is recorded, so that a run can be asked which calls it made.

    A name is refused as Linux refuses it: a name with a NUL byte never
    reaches the system (EINVAL), a path of [PATH_MAX] bytes or more and an
    element of more than [NAME_MAX] bytes are too long (ENAMETOOLONG), and
    every directory on the way to the last element has to be there (ENOENT)
    and to be a directory (ENOTDIR). What the map holds exists: the file
    system took its name when it was made. The calls are given the paths the
    program gives them, which [filepath.Join] has cleaned. *)
Module os.

Inductive node : Type :=
| File (data : list Byte.byte)
| Dir.

Global Instance byte_eq_dec : EqDecision Byte.byte := Byte.byte_eq_dec.

Global Instance node_eq_dec : EqDecision node.
Proof. solve_decision. Defined.

Inductive Errno : Type := ENOENT | EISDIR | ENOTDIR | ENAMETOOLONG | EINVAL.

(** [*fs.PathError] *)
Record PathError : Type := { Op : string; Path : string; Err : Errno }.

Definition Errno_Error (e : Errno) : string :=
  match e with
  | ENOENT => "no such file or directory"
  | EISDIR => "is a directory"
  | ENOTDIR => "not a directory"
  | ENAMETOOLONG => "file name too long"
  | EINVAL => "invalid argument"
  end.

(** The most bytes an element of a path can have. *)
Definition NAME_MAX : nat := 255.

(** The bytes a path given to the system can have, with the NUL that ends it. *)
Definition PATH_MAX : nat := 4096.

(** [err.Error()] *)
Definition Error (e : PathError) : string :=
  Op e +:+ " " +:+ Path e +:+ ": " +:+ Errno_Error (Err e).

Inductive call : Type :=
| CallReadFile (name : string)
| CallWriteFile (name : string)
| CallReadDir (name : string).

Record World : Type := {
  files : gmap string node;
  calls : list call;
}.

(** [fs.DirEntry], as far as the program looks at it. *)
Record DirEntry : Type := { Name : string; IsDir : bool }.

(** What is at a cleaned path; the working directory and the root exist. *)
Definition stat (fs : gmap string node) (path : string) : option node :=
  if decide (path = "." ∨ path = "/") then Some Dir else fs !! path.

(** The path up to and including its last separator. *)
Fixpoint through_last_sep (s : string) : string :=
  match s with
  | "" => ""
  | String c s' =>
      match through_last_sep s' with
      | "" => if decide (c = "/"%char) then "/" else ""
      | r => String c r
      end
  end.

(** [filepath.Dir] of a cleaned path: the directory that holds it. *)
Definition parent (path : string) : string :=
  filepath.Clean (through_last_sep path).

Definition log (c : call) (σ : World) : World :=
  {| files := files σ; calls := calls σ ++ [c] |}.

(** Where a path leads: to what is there, to a free name in a directory
    that is there, or nowhere, with the error of the system. *)
Inductive resolved : Type :=
| Found (n : node)
| Free
| Refused (e : Errno).

(** The way along the elements of a cleaned path, from the directory [dir]
    (a prefix of the path, "" at the start): the root and the directories
    above the working directory are there; an element that is too long is
    refused by the directory asked for it; an element before the last has to
    be a directory. *)
Fixpoint walk (fs : gmap string node) (dir : string) (elems : list string)
  : resolved :=
  match elems with
  | [] => Found Dir
  | e :: elems' =>
      let here := dir +:+ e in
      if decide (e = "" ∨ e = "..") then walk fs (here +:+ "/") elems'
      else if decide (NAME_MAX < String.length e) then Refused ENAMETOOLONG
      else
        match fs !! here, elems' with
        | Some n, [] => Found n
        | None, [] => Free
        | Some Dir, _ :: _ => walk fs (here +:+ "/") elems'
        | Some (File _), _ :: _ => Refused ENOTDIR
        | None, _ :: _ => Refused ENOENT
        end
  end.

(** What the system finds at [name]. *)
Definition resolve (fs : gmap string node) (name : string) : resolved :=
  if decide (name = "") then Refused ENOENT
  else if decide (no_nul name) then
    let path := filepath.Clean name in
    match stat fs path with
    | Some n => Found n
    | None =>
        if decide (PATH_MAX ≤ String.length name) then Refused ENAMETOOLONG
        else walk fs "" (strings.Split path "/")
    end
  else Refused EINVAL.

(** [os.WriteFile(name, data, perm)]: creates the file or truncates the one
    that exists, then writes [data]; [None] is the nil error. *)
Definition WriteFile (name : string) (data : list Byte.byte) (perm : N)
    (σ : World) : option PathError * World :=
  let path := filepath.Clean name in
  let σ := log (CallWriteFile name) σ in
  let fail e := (Some {| Op := "open"; Path := name; Err := e |}, σ) in
  match resolve (files σ) name with
  | Found Dir => fail EISDIR
  | Found (File _) | Free =>
      (None, {| files := <[path := File data]> (files σ); calls := calls σ |})
  | Refused e => fail e
  end.

(** [os.ReadFile(name)]: the content, or the error. *)
Definition ReadFile (name : string) (σ : World)
  : (list Byte.byte + PathError) * World :=
  let σ := log (CallReadFile name) σ in
  match resolve (files σ) name with
  | Found (File data) => (inl data, σ)
  | Found Dir => (inr {| Op := "read"; Path := name; Err := EISDIR |}, σ)
  | Free => (inr {| Op := "open"; Path := name; Err := ENOENT |}, σ)
  | Refused e => (inr {| Op := "open"; Path := name; Err := e |}, σ)
  end.

(** The name under which [key] is an entry of directory [dir], if it is. *)
Definition entry_name (dir key : string) : option string :=
  let pre :=
    if decide (dir = ".") then ""
    else if decide (dir = "/") then "/" else dir +:+ "/" in
  if String.prefix pre key then
    let base := str_drop (String.length pre) key in
    if decide (base ≠ "" ∧ no_slash base) then Some base else None
  else None.

Definition entries (fs : gmap string node) (dir : string) : list DirEntry :=
  omap (λ '(key, n),
          base ← entry_name dir key;
          Some {| Name := base; IsDir := bool_decide (n = Dir) |})
       (map_to_list fs).

Definition by_name (e1 e2 : DirEntry) : Prop := (Name e1 ≤ Name e2)%string.

Global Instance by_name_dec : RelDecision by_name.
Proof. intros ??. unfold by_name. apply _. Defined.

(** [os.ReadDir(name)]: the entries of the directory, sorted by file name. *)
Definition ReadDir (name : string) (σ : World)
  : (list DirEntry + PathError) * World :=
  let path := filepath.Clean name in
  let σ := log (CallReadDir name) σ in
  match resolve (files σ) name with
  | Found Dir => (inl (merge_sort by_name (entries (files σ) path)), σ)
  | Found (File _) => (inr {| Op := "open"; Path := name; Err := ENOTDIR |}, σ)
  | Free => (inr {| Op := "open"; Path := name; Err := ENOENT |}, σ)
  | Refused e => (inr {| Op := "open"; Path := name; Err := e |}, σ)
  end.

End os.

(* ===================================================================== *)
(** * Effects: calls on the file system thread the world                  *)
(* ===================================================================== *)

Definition IO (A : Type) : Type := os.World → A * os.World.

Global Instance IO_ret : MRet IO := λ A a σ, (a, σ).

Global Instance IO_bind : MBind IO :=
  λ A B f m σ, let '(a, σ') := m σ in f a σ'.

(** Go's [error] values of this program; [None] is the nil error. *)
Inductive error : Type :=
| PathErr (e : os.PathError)
| TemplateErr (msg : string).

Definition error_Error (e : error) : string :=
  match e with
  | PathErr e => os.Error e
  | TemplateErr msg => msg
  end.

(* ===================================================================== *)
(** * Package net/http: requests and response writers                     *)
(* ===================================================================== *)

(** What a presentation shows. The template engine is a collaborator of the
    program: its output is kept as the data it displays, not as markup. An
    index presentation has one entry per name it is given; the engine puts
    the name, escaped for the place it goes to, in the view link, the label
    and the edit link of the entry. *)
Inductive Presentation : Type :=
| ViewPresentation (name : string) (body : string)
| EditPresentation (name : string) (body : list Byte.byte)
| IndexPresentation (names : list string)
| IndexEmpty (create : string).

Module http.

Definition StatusOK : nat := 200.
Definition StatusFound : nat := 302.
Definition StatusNotFound : nat := 404.
Definition StatusInternalServerError : nat := 500.

Record Request : Type := {
  Method : string;
  Path : string;                       (* r.URL.Path *)
  Form : gmap string (list string);    (* the parsed form payload *)
}.

(** [r.FormValue(key)]: the first value of the field, [""] when absent. *)
Definition FormValue (r : Request) (key : string) : string :=
  match Form r !! key with
  | Some (v :: _) => v
  | _ => ""
  end.

Inductive chunk : Type :=
| Text (s : string)                       (* plain text *)
| RedirectNote (url : string) (code : nat) (* the short note of a redirect *)
| Rendered (p : Presentation).            (* the output of a template *)

(** The response so far: the status once the header is written, the
    Location header, and what was written to the body. *)
Record ResponseWriter : Type := {
  Status : option nat;
  Location : option string;
  Written : list chunk;
}.

Definition NewRecorder : ResponseWriter :=
  {| Status := None; Location := None; Written := [] |}.

(** [w.WriteHeader(code)]: only the first call counts. *)
Definition WriteHeader (code : nat) (w : ResponseWriter) : ResponseWriter :=
  match Status w with
  | Some _ => w
  | None => {| Status := Some code; Location := Location w; Written := Written w |}
  end.

(** [w.Write(...)]: writes the header with status 200 if none was written. *)
Definition Write (c : chunk) (w : ResponseWriter) : ResponseWriter :=
  let w := WriteHeader StatusOK w in
  {| Status := Status w; Location := Location w; Written := Written w ++ [c] |}.

(** [http.Error(w, msg, code)]: the status, then the message and a newline. *)
Definition Error (w : ResponseWriter) (msg : string) (code : nat)
  : ResponseWriter :=
  Write (Text (msg +:+ String "010"%char "")) (WriteHeader code w).

(** [http.NotFound(w, r)] *)
Definition NotFound (w : ResponseWriter) (r : Request) : ResponseWriter :=
  Error w "404 page not found" StatusNotFound.

(** [http.Redirect(w, r, url, code)] for a [url] that is an absolute path
    already clean and without a query: the Location header is [url] itself. *)
Definition Redirect (w : ResponseWriter) (r : Request) (url : string)
    (code : nat) : ResponseWriter :=
  let w := {| Status := Status w; Location := Some url; Written := Written w |} in
  let w := WriteHeader code w in
  if decide (Method r = "GET") then
    {| Status := Status w; Location := Location w;
       Written := Written w ++ [RedirectNote url code] |}
  else w.

End http.

(* ===================================================================== *)
(** * The wiki program                                                    *)
(* ===================================================================== *)

(** [type Page struct { Title string; Body []byte }] *)
Record Page : Type := { Title : string; Body : list Byte.byte }.

(** [type IndexPage struct { Pages []string }] *)
Record IndexPage : Type := { Pages : list string }.

Definition savePath : string := "data".
Definition templatePath : string := "templates".

(** File mode 0600. *)
Definition perm_0600 : N := 384.

(** ** Data persistence *)

(** [func (p) save() error], method of the page *)
Definition save (p : Page) : IO (option error) :=
  let filename := Title p +:+ ".txt" in
  let filePath := filepath.Join [savePath; filename] in
  err ← os.WriteFile filePath (Body p) perm_0600;
  mret (PathErr <$> err).

(** [func loadPage(title string)], returning the page or the error *)
Definition loadPage (title : string) : IO (Page + error) :=
  let filename := title +:+ ".txt" in
  let filePath := filepath.Join [savePath; filename] in
  res ← os.ReadFile filePath;
  match res with
  | inr err => mret (inr (PathErr err))
  | inl body => mret (inl {| Title := title; Body := body |})
  end.

(** [func getAllPages() ([]string, error)] *)
Definition getAllPages : IO (list string + error) :=
  res ← os.ReadDir savePath;
  match res with
  | inr err => mret (inr (PathErr err))
  | inl files =>
      mret (inl (omap (λ file,
                   if negb (os.IsDir file) && strings.HasSuffix (os.Name file) ".txt"
                   then Some (strings.TrimSuffix (os.Name file) ".txt")
                   else None) files))
  end.

(** ** Template rendering *)

(** The replacement of one link marker: [match[1 : len(match)-1]] is the page
    name between the brackets. *)
Definition linkRepl (match_ : string) : string :=
  let pageName := str_drop 1 (str_take (String.length match_ - 1) match_) in
  "<a href=" +:+ dquote +:+ "/view/" +:+ pageName +:+ dquote +:+ ">"
    +:+ pageName +:+ "</a>".

(** [func processLinks(body []byte) template.HTML] *)
Definition processLinks (body : list Byte.byte) : string :=
  let s := String.string_of_list_byte body in
  let re := linkPattern in
  let processed := ReplaceAllStringFunc re s linkRepl in
  processed.

(** The data a template is executed with. *)
Inductive TemplateData : Type :=
| PageData (p : Page)
| IndexData (d : IndexPage).

(** Modelled from the spec: templates/view.html is not among the sources. The
    view template shows the page's name and its body passed through the Link
    Transform, which the program registers for its templates as
    "processLinks". *)
Definition view_html (data : TemplateData) : option Presentation :=
  match data with
  | PageData p => Some (ViewPresentation (Title p) (processLinks (Body p)))
  | IndexData _ => None
  end.

(** Modelled from the spec: templates/edit.html is not among the sources. The
    edit template shows the page's name and its raw body in an editable field. *)
Definition edit_html (data : TemplateData) : option Presentation :=
  match data with
  | PageData p => Some (EditPresentation (Title p) (Body p))
  | IndexData _ => None
  end.

(** templates/index.html: one entry per page, in the order of [.Pages], or
    the empty state with a link that creates the first page. *)
Definition index_html (data : TemplateData) : option Presentation :=
  match data with
  | IndexData d =>
      match Pages d with
      | [] => Some (IndexEmpty "/edit/Home")
      | _ => Some (IndexPresentation (Pages d))
      end
  | PageData _ => None
  end.

(** [var templates]: the three parsed files, by base name. *)
Definition templates (name : string) : option (TemplateData → option Presentation) :=
  if decide (name = "edit.html") then Some edit_html
  else if decide (name = "view.html") then Some view_html
  else if decide (name = "index.html") then Some index_html
  else None.

(** [templates.ExecuteTemplate(w, name, data)]: fails on a name that is not
    defined and on data without the fields the template reads. *)
Definition ExecuteTemplate (w : http.ResponseWriter) (name : string)
    (data : TemplateData) : http.ResponseWriter * option error :=
  match templates name with
  | None =>
      (w, Some (TemplateErr ("html/template: " +:+ dquote +:+ name +:+ dquote
                               +:+ " is undefined")))
  | Some tmpl =>
      match tmpl data with
      | Some out => (http.Write (http.Rendered out) w, None)
      | None => (w, Some (TemplateErr ("template: " +:+ name +:+ ": can't evaluate field")))
      end
  end.

(** [func renderTemplate(w, tmpl, p)] *)
Definition renderTemplate (w : http.ResponseWriter) (tmpl : string) (p : Page)
  : http.ResponseWriter :=
  let '(w, err) := ExecuteTemplate w (tmpl +:+ ".html") (PageData p) in
  match err with
  | Some err => http.Error w (error_Error err) http.StatusInternalServerError
  | None => w
  end.

(** [func renderIndexTemplate(w, tmpl, indexData)] *)
Definition renderIndexTemplate (w : http.ResponseWriter) (tmpl : string)
    (indexData : IndexPage) : http.ResponseWriter :=
  let '(w, err) := ExecuteTemplate w (tmpl +:+ ".html") (IndexData indexData) in
  match err with
  | Some err => http.Error w (error_Error err) http.StatusInternalServerError
  | None => w
  end.

(** ** HTTP handlers *)

Definition Handler : Type :=
  http.ResponseWriter → http.Request → IO http.ResponseWriter.

(** [func indexHandler(w, r)] *)
Definition indexHandler : Handler := λ w r,
  res ← getAllPages;
  match res with
  | inr err =>
      mret (http.Error w (error_Error err) http.StatusInternalServerError)
  | inl pages =>
      let indexData := {| Pages := pages |} in
      mret (renderIndexTemplate w "index" indexData)
  end.

(** [func viewHandler(w, r, title)] *)
Definition viewHandler (w : http.ResponseWriter) (r : http.Request)
    (title : string) : IO http.ResponseWriter :=
  res ← loadPage title;
  match res with
  | inr err => mret (http.Redirect w r ("/edit/" +:+ title) http.StatusFound)
  | inl p => mret (renderTemplate w "view" p)
  end.

(** [func editHandler(w, r, title)] *)
Definition editHandler (w : http.ResponseWriter) (r : http.Request)
    (title : string) : IO http.ResponseWriter :=
  res ← loadPage title;
  let p :=
    match res with
    | inr err => {| Title := title; Body := [] |}
    | inl p => p
    end in
  mret (renderTemplate w "edit" p).

(** [func saveHandler(w, r, title)] *)
Definition saveHandler (w : http.ResponseWriter) (r : http.Request)
    (title : string) : IO http.ResponseWriter :=
  let body := http.FormValue r "body" in
  let p := {| Title := title; Body := String.list_byte_of_string body |} in
  err ← save p;
  match err with
  | Some err =>
      mret (http.Error w (error_Error err) http.StatusInternalServerError)
  | None => mret (http.Redirect w r ("/view/" +:+ title) http.StatusFound)
  end.

(** [func rootHandler(w, r)] *)
Definition rootHandler : Handler := λ w r,
  if decide (http.Path r = "/") then indexHandler w r
  else mret (http.NotFound w r).

(** ** Middleware *)

(** [func makeHandler(fn) http.HandlerFunc]: [m[2]] is the name group. *)
Definition makeHandler
    (fn : http.ResponseWriter → http.Request → string → IO http.ResponseWriter)
  : Handler := λ w r,
  let m := FindStringSubmatch validPath (http.Path r) in
  match m with
  | None => mret (http.NotFound w r)
  | Some m => fn w r (default "" (m !! 2))
  end.

(* ===================================================================== *)
(** * The vocabulary of the specification                                 *)
(* ===================================================================== *)

(** The notions the claims are stated with: the name grammar, routes, the
    record of a page, link markers, and a sample world and request. *)

(** Length of the longest prefix of [s] whose bytes all satisfy [f]. *)
Fixpoint span (f : ascii → bool) (s : string) : nat :=
  match s with
  | String c s' => if f c then S (span f s') else 0
  | "" => 0
  end.

(** An ASCII letter (a-z, A-Z) or an ASCII digit (0-9), by character code. *)
Definition ascii_letter_or_digit (c : ascii) : Prop :=
  let n := nat_of_ascii c in
  97 ≤ n ≤ 122 ∨ 65 ≤ n ≤ 90 ∨ 48 ≤ n ≤ 57.

(** A valid page name: non-empty, every character an ASCII letter or digit. *)
Definition valid_name (s : string) : Prop :=
  s ≠ "" ∧ Forall ascii_letter_or_digit (String.list_ascii_of_string s).

Global Instance ascii_letter_or_digit_dec c : Decision (ascii_letter_or_digit c).
Proof. unfold ascii_letter_or_digit. apply _. Defined.

Global Instance valid_name_dec s : Decision (valid_name s).
Proof. unfold valid_name. apply _. Defined.

(** The three operation keywords of the router. *)
Definition operations : list string := ["edit"; "save"; "view"].

(** A request path is a route when it is "/" keyword "/" name for one of the
    three operation keywords and a valid page name. *)
Definition is_route (path : string) : Prop :=
  ∃ op name,
    op ∈ operations ∧ valid_name name ∧ path = "/" +:+ op +:+ "/" +:+ name.

(** A world whose data directory exists and is empty. *)
Definition fresh_world : os.World :=
  {| os.files := {["data" := os.Dir]}; os.calls := [] |}.

(** A GET request for [path] whose form carries [fields]. *)
Definition get_request (path : string) (fields : gmap string (list string))
  : http.Request :=
  {| http.Method := "GET"; http.Path := path; http.Form := fields |}.

(** A regular entry name: what a directory can hold under [data]. *)
Definition entry_like (base : string) : Prop :=
  no_slash base ∧ base ≠ "" ∧ base ≠ "." ∧ base ≠ "..".

(** The key of the record of page [n]: the name plus the fixed suffix, in the
    data directory. *)
Definition page_file (n : string) : string := "data/" +:+ n +:+ ".txt".

(** The files that are there allow a record at [key]: nothing but a regular
    file is in the way, and the data directory is there. *)
Definition writable (fs : gmap string os.node) (key : string) : Prop :=
  match fs !! key with
  | Some os.Dir => False
  | Some (os.File _) => True
  | None => fs !! "data" = Some os.Dir
  end.

Global Instance writable_dec fs key : Decision (writable fs key).
Proof. unfold writable. destruct (fs !! key) as [[]|]; apply _. Defined.

(** The file system takes [base] as the name of a new entry. *)
Definition name_fits (base : string) : Prop :=
  no_nul base ∧ String.length base ≤ os.NAME_MAX.

Global Instance name_fits_dec base : Decision (name_fits base).
Proof. unfold name_fits. apply _. Defined.

(** The store can take the record of [n]: no directory is where it goes, and
    the record is there already or can be made, with the data directory
    there and a file name, [n] plus the suffix, that the file system takes. *)
Definition storable (fs : gmap string os.node) (n : string) : Prop :=
  no_nul n ∧
  match fs !! page_file n with
  | Some os.Dir => False
  | Some (os.File _) => True
  | None => fs !! "data" = Some os.Dir ∧ String.length (n +:+ ".txt") ≤ os.NAME_MAX
  end.

Global Instance storable_dec fs n : Decision (storable fs n).
Proof. unfold storable. destruct (fs !! page_file n) as [[]|]; apply _. Defined.

(** The name of [k] letters "a". *)
Fixpoint letters (k : nat) : string :=
  match k with
  | 0 => ""
  | S k' => String "a" (letters k')
  end.

(** The filter of the loop of getAllPages on one directory entry. *)
Definition page_of_entry (file : os.DirEntry) : option string :=
  if negb (os.IsDir file) && strings.HasSuffix (os.Name file) ".txt"
  then Some (strings.TrimSuffix (os.Name file) ".txt")
  else None.

(** The cross-reference to the view operation of page [name], with the name
    as its visible label. *)
Definition link_to (name : string) : string :=
  "<a href=" +:+ dquote +:+ "/view/" +:+ name +:+ dquote +:+ ">"
    +:+ name +:+ "</a>".

(** The link marker of page [name]. *)
Definition marker (name : string) : string := "[" +:+ name +:+ "]".

(** [s] holds a link marker: a bracketed valid name somewhere inside. *)
Definition has_marker (s : string) : Prop :=
  ∃ pre name post, valid_name name ∧ s = pre +:+ marker name +:+ post.

(** The length of the name of the marker that starts [s], if one does. *)
Definition marker_at (s : string) : option nat :=
  match s with
  | String c s' =>
      let n := span (in_class alnum_ranges) s' in
      if decide (c = "["%char ∧ 1 ≤ n ∧ String.prefix "]" (str_drop n s') = true)
      then Some n else None
  | "" => None
  end.

(** The transform as a scan from left to right: [skip] bytes of a marker
    already replaced are passed over, a marker is replaced by its link, and
    any other byte is copied. *)
Fixpoint link_scan (skip : nat) (s : string) : string :=
  match s with
  | "" => ""
  | String c s' =>
      match skip with
      | S k => link_scan k s'
      | 0 =>
          match marker_at s with
          | Some n => linkRepl (str_take (n + 2) s) +:+ link_scan (n + 1) s'
          | None => String c (link_scan 0 s')
          end
      end
  end.

(** Whether a marker starts somewhere in [s]. *)
Fixpoint marker_inside (s : string) : bool :=
  match s with
  | "" => false
  | String _ s' => bool_decide (is_Some (marker_at s)) || marker_inside s'
  end.

(** Every record of the store is the record of a valid name: the regular
    files directly in the data directory named name ".txt" have a name that
    satisfies the grammar. *)
Definition records_valid (fs : gmap string os.node) : Prop :=
  ∀ n c, no_slash n → fs !! page_file n = Some (os.File c) → valid_name n.


(** ** Startup *)

(** File mode 0755. *)
Definition perm_0755 : N := 493.

(** [os.MkdirAll(path, perm)] on a cleaned path: nothing to do when a
    directory is there, an error when a regular file is; otherwise the
    directories above are made first, then the directory itself. [fuel]
    bounds the way up, which the length of the path does. Startup is not a
    request: it is kept out of the record of calls. *)
Fixpoint MkdirAll_from (fuel : nat) (path : string) (fs : gmap string os.node)
  : option os.PathError * gmap string os.node :=
  match os.stat fs path with
  | Some os.Dir => (None, fs)
  | Some (os.File _) =>
      (Some {| os.Op := "mkdir"; os.Path := path; os.Err := os.ENOTDIR |}, fs)
  | None =>
      match fuel with
      | 0 => (Some {| os.Op := "mkdir"; os.Path := path; os.Err := os.ENOENT |}, fs)
      | S fuel' =>
          match MkdirAll_from fuel' (os.parent path) fs with
          | (Some err, fs') => (Some err, fs')
          | (None, fs') => (None, <[path := os.Dir]> fs')
          end
      end
  end.

Definition MkdirAll (path : string) (perm : N) (fs : gmap string os.node)
  : option os.PathError * gmap string os.node :=
  MkdirAll_from (String.length path) path fs.

(** The handlers that [main] registers for the pages of the wiki, in the
    order of the registration: "/", "/index", "/view/", "/edit/", "/save/". *)
Definition registered : list Handler :=
  [rootHandler; indexHandler; makeHandler viewHandler; makeHandler editHandler;
   makeHandler saveHandler].

(** The world after the requests are served, one after the other. *)
Definition serve_all
    (reqs : list (Handler * http.ResponseWriter * http.Request)) (σ : os.World)
  : os.World :=
  foldl (λ σ '(h, w, r), (h w r σ).2) σ reqs.

(** The line that the logging middleware of [main] writes for a request
    before it hands the request on, if it writes one: requests for the static
    files and for the icon are not logged. The time stamp that [log.Printf]
    puts before the line is left out. *)
Definition loggedMux_line (r : http.Request) : option string :=
  if negb (String.prefix "/static/" (http.Path r))
     && bool_decide (http.Path r ≠ "/favicon.ico")
  then Some ("Request: " +:+ http.Method r +:+ " " +:+ http.Path r)
  else None.

(* ===================================================================== *)
(** * Facts about strings                                                 *)
(* ===================================================================== *)

Section string_facts.
Implicit Types (s t u : string) (c : ascii) (n k : nat).

Lemma str_app_cons c s t : String c s +:+ t = String c (s +:+ t).
Proof. reflexivity. Qed.

Lemma str_app_nil_l t : "" +:+ t = t.
Proof. reflexivity. Qed.

Lemma str_app_nil_r s : s +:+ "" = s.
Proof. induction s as [|c s IH]; [done|]. by rewrite str_app_cons, IH. Qed.

Lemma str_app_assoc s t u : (s +:+ t) +:+ u = s +:+ (t +:+ u).
Proof.
  induction s as [|c s IH]; [done|]. by rewrite !str_app_cons, IH.
Qed.

Lemma str_length_app s t :
  String.length (s +:+ t) = String.length s + String.length t.
Proof.
  induction s as [|c s IH]; [done|]. rewrite str_app_cons. simpl. by rewrite IH.
Qed.

Lemma str_length_0 s : String.length s = 0 → s = "".
Proof. by destruct s. Qed.

Lemma str_take_0 s : str_take 0 s = "".
Proof. by destruct s. Qed.

Lemma str_drop_0 s : str_drop 0 s = s.
Proof. by destruct s. Qed.

Lemma str_take_drop n s : str_take n s +:+ str_drop n s = s.
Proof.
  revert s. induction n as [|n IH]; intros [|c s]; simpl; try done.
  by rewrite str_app_cons, IH.
Qed.

Lemma str_take_app s t : str_take (String.length s) (s +:+ t) = s.
Proof.
  induction s as [|c s IH]; [apply str_take_0|].
  rewrite str_app_cons. simpl. by rewrite IH.
Qed.

Lemma str_drop_app s t : str_drop (String.length s) (s +:+ t) = t.
Proof.
  induction s as [|c s IH]; [apply str_drop_0|].
  rewrite str_app_cons. simpl. by rewrite IH.
Qed.

Lemma str_take_all s : str_take (String.length s) s = s.
Proof. rewrite <-(str_app_nil_r s) at 2. apply str_take_app. Qed.

Lemma str_length_take n s : String.length (str_take n s) = n `min` String.length s.
Proof.
  revert s. induction n as [|n IH]; intros [|c s]; simpl; try done.
  by rewrite IH.
Qed.

Lemma str_length_drop n s : String.length (str_drop n s) = String.length s - n.
Proof.
  revert s. induction n as [|n IH]; intros [|c s]; simpl; try done.
Qed.

Lemma str_drop_nil_iff n s : str_drop n s = "" ↔ String.length s ≤ n.
Proof.
  split.
  - intros H. pose proof (str_length_drop n s) as HL. rewrite H in HL.
    simpl in HL. lia.
  - intros H. apply str_length_0. rewrite str_length_drop. lia.
Qed.

Lemma str_drop_drop n k s : str_drop n (str_drop k s) = str_drop (k + n) s.
Proof.
  revert s. induction k as [|k IH]; intros s; simpl.
  - done.
  - destruct s as [|c s]; [by destruct n|]. apply IH.
Qed.

Lemma str_prefix_nil s : String.prefix "" s = true.
Proof. by destruct s. Qed.

Lemma str_prefix_app s t : String.prefix s (s +:+ t) = true.
Proof.
  induction s as [|c s IH]; [by destruct t|].
  rewrite str_app_cons. simpl. by destruct (ascii_dec c c).
Qed.

Lemma str_prefix_inv s t :
  String.prefix s t = true → t = s +:+ str_drop (String.length s) t.
Proof.
  revert t. induction s as [|c s IH]; intros t H.
  - done.
  - destruct t as [|c' t]; [done|]. simpl in H.
    destruct (ascii_dec c c') as [->|]; [|done].
    rewrite str_app_cons. simpl. by rewrite <-IH.
Qed.

Lemma str_forall_app f s t :
  str_forall f (s +:+ t) = str_forall f s && str_forall f t.
Proof.
  induction s as [|c s IH]; [done|].
  rewrite str_app_cons. simpl. rewrite IH. by rewrite andb_assoc.
Qed.

Lemma str_app_inv_tail s t u : s +:+ u = t +:+ u → s = t.
Proof.
  intros H. assert (String.length s = String.length t) as Hlen.
  { apply (f_equal String.length) in H. rewrite !str_length_app in H. lia. }
  rewrite <-(str_take_app s u), H, Hlen. apply str_take_app.
Qed.

End string_facts.

(** Puts a concatenation whose left part starts with known bytes in head
    normal form. *)
Ltac str_norm :=
  repeat first [ rewrite str_app_cons | rewrite str_app_nil_l ].


(* ===================================================================== *)
(** * Facts about the matcher                                             *)
(* ===================================================================== *)

Section matcher_facts.
Implicit Types (s : string) (c : ascii) (n k p : nat) (t : thread)
  (cs : list (nat * string)).

Lemma span_le f s : span f s ≤ String.length s.
Proof. induction s as [|c s IH]; simpl; [done|]. destruct (f c); lia. Qed.

Lemma span_all f s : span f s = String.length s ↔ str_forall f s = true.
Proof.
  induction s as [|c s IH]; simpl; [done|].
  destruct (f c); simpl; [|done]. rewrite <-IH. lia.
Qed.

Lemma span_app_stop f s c u :
  str_forall f s = true → f c = false →
  span f (s +:+ String c u) = String.length s.
Proof.
  intros Hs Hc. induction s as [|c' s IH]; simpl in *.
  - by rewrite Hc.
  - apply andb_prop in Hs as [-> Hs]. by rewrite IH.
Qed.

(** Below the span every byte is in the class. *)
Lemma span_drop_lt f s k :
  k < span f s → ∃ c u, str_drop k s = String c u ∧ f c = true.
Proof.
  revert k. induction s as [|c s IH]; intros k; simpl; [lia|].
  destruct (f c) eqn:Hc; [|lia]. intros Hk.
  destruct k as [|k]; simpl; [eauto|]. apply IH. lia.
Qed.

Lemma span_take f s : str_forall f (str_take (span f s) s) = true.
Proof.
  induction s as [|c s IH]; simpl; [done|].
  destruct (f c) eqn:Hc; simpl; [|done]. by rewrite Hc.
Qed.

(** A test after a list of alternatives keeps the alternatives that pass. *)
Lemma bind_test {A B} (P : A → bool) (g : A → B) (l : list A) :
  (x ← l; if P x then [g x] else []) = g <$> filter (λ x, P x = true) l.
Proof.
  induction l as [|x l IH]; [done|]. rewrite bind_cons, filter_cons, IH.
  by destruct (P x).
Qed.

(** Counting down from [n] to 1, a test that fails below [n] keeps at most [n]. *)
Lemma filter_countdown (P : nat → Prop) `{!∀ k, Decision (P k)} n :
  (∀ k, 1 ≤ k < n → ¬ P k) →
  filter P (reverse (seq 1 n)) = if decide (1 ≤ n ∧ P n) then [n] else [].
Proof.
  induction n as [|n IH]; intros Hlow.
  - by rewrite decide_False by lia.
  - rewrite seq_S, reverse_snoc, filter_cons. cbn [Nat.add].
    rewrite IH by (intros; apply Hlow; lia).
    rewrite (decide_False (P := 1 ≤ n ∧ P n)) by (intros [??]; by eapply (Hlow n); [lia|]).
    destruct (decide (P (S n))).
    + by rewrite decide_True by (split; [lia|done]).
    + by rewrite decide_False by tauto.
Qed.

(** The defining equations of the matcher, for rewriting. *)
Lemma plus_loop_S step fuel t :
  plus_loop step (S fuel) t
  = t' ← step t;
    (if decide (pos t < pos t') then plus_loop step fuel t' else []) ++ [t'].
Proof. reflexivity. Qed.

Lemma run_Literal l t :
  run (Literal l) t
  = if String.prefix l (rest t) then [advance (String.length l) t] else [].
Proof. reflexivity. Qed.

Lemma run_CharClass_cons rs p c s cs :
  run (CharClass rs) (Thread p (String c s) cs)
  = if in_class rs c then [Thread (p + 1) s cs] else [].
Proof. reflexivity. Qed.

Lemma run_CharClass_nil rs p cs : run (CharClass rs) (Thread p "" cs) = [].
Proof. reflexivity. Qed.

Lemma run_Concat r1 r2 t : run (Concat r1 r2) t = t' ← run r1 t; run r2 t'.
Proof. reflexivity. Qed.

Lemma run_Alternate r1 r2 t : run (Alternate r1 r2) t = run r1 t ++ run r2 t.
Proof. reflexivity. Qed.

Lemma run_Plus r t :
  run (Plus r) t = plus_loop (run r) (S (String.length (rest t))) t.
Proof. reflexivity. Qed.

Lemma run_Capture i r t :
  run (Capture i r) t
  = (λ t', Thread (pos t') (rest t')
             ((i, str_take (pos t' - pos t) (rest t)) :: caps t'))
      <$> run r t.
Proof. reflexivity. Qed.

Lemma run_BeginText t : run BeginText t = if decide (pos t = 0) then [t] else [].
Proof. reflexivity. Qed.

Lemma run_EndText t :
  run EndText t = if bool_decide (rest t = "") then [t] else [].
Proof. by destruct t as [? [|??] ?]. Qed.

(** [x+] over a class: one thread per prefix length, the longest first. *)
Lemma plus_loop_class rs s p cs fuel :
  String.length s < fuel →
  plus_loop (run (CharClass rs)) fuel (Thread p s cs)
  = (λ k, Thread (p + k) (str_drop k s) cs) <$> reverse (seq 1 (span (in_class rs) s)).
Proof.
  revert p fuel. induction s as [|c s IH]; intros p fuel Hfuel;
    (destruct fuel as [|fuel]; [simpl in Hfuel; lia|]); rewrite plus_loop_S.
  - by rewrite run_CharClass_nil.
  - rewrite run_CharClass_cons. cbn [span].
    destruct (in_class rs c); [|done].
    rewrite bind_singleton. cbn [pos].
    rewrite decide_True by lia.
    rewrite IH by (simpl in Hfuel; lia).
    cbn [seq]. rewrite reverse_cons.
    rewrite fmap_app, <-(fmap_S_seq 1), <-fmap_reverse, <-list_fmap_compose.
    f_equal. apply list_fmap_ext. intros _ k _. simpl. f_equal. lia.
Qed.

Lemma run_plus_class rs t :
  run (Plus (CharClass rs)) t
  = (λ k, advance k t) <$> reverse (seq 1 (span (in_class rs) (rest t))).
Proof.
  destruct t as [p s cs]. rewrite run_Plus. by rewrite plus_loop_class by (simpl; lia).
Qed.

(** A captured [x+] over a class followed by a test [r2] that no byte of the
    class passes: only the longest run of class bytes can be the group. *)
Lemma run_capture_plus_test i rs r2 (P : string → bool) (g : thread → thread) t :
  (∀ t', run r2 t' = if P (rest t') then [g t'] else []) →
  (∀ c u, in_class rs c = true → P (String c u) = false) →
  run (Concat (Capture i (Plus (CharClass rs))) r2) t
  = let n := span (in_class rs) (rest t) in
    if bool_decide (1 ≤ n) && P (str_drop n (rest t))
    then [g (Thread (pos t + n) (str_drop n (rest t))
               ((i, str_take n (rest t)) :: caps t))]
    else [].
Proof.
  intros Hr2 HP. destruct t as [p s cs]. cbn [rest pos caps].
  rewrite run_Concat, run_Capture, run_plus_class. cbn [rest pos caps].
  rewrite <-list_fmap_compose, list_fmap_bind.
  set (T := λ k, Thread (p + k) (str_drop k s) ((i, str_take (p + k - p) s) :: cs)).
  rewrite (list_bind_ext _ (λ k, if P (str_drop k s) then [g (T k)] else []) _
             (reverse (seq 1 (span (in_class rs) s))))
    by (try done; intros k; simpl; by rewrite Hr2).
  rewrite (bind_test (λ k, P (str_drop k s)) (λ k, g (T k))).
  rewrite filter_countdown.
  - destruct (decide (1 ≤ span (in_class rs) s)) as [Hn|Hn].
    + rewrite (bool_decide_eq_true_2 _ Hn). simpl.
      destruct (P (str_drop (span (in_class rs) s) s)) eqn:HPn.
      * rewrite decide_True by done. simpl. unfold T.
        by replace (p + span (in_class rs) s - p) with (span (in_class rs) s) by lia.
      * by rewrite decide_False by (intros [_ ?]; congruence).
    + rewrite (bool_decide_eq_false_2 _ Hn). simpl.
      by rewrite decide_False by (intros [? _]; done).
  - intros k [_ Hk]. destruct (span_drop_lt _ _ _ Hk) as (c & u & -> & Hc).
    by rewrite (HP _ _ Hc).
Qed.

End matcher_facts.



Section name_facts.
Implicit Types (s : string) (c : ascii).

Lemma in_class_alnum c :
  in_class alnum_ranges c = true ↔ ascii_letter_or_digit c.
Proof.
  unfold ascii_letter_or_digit, in_class, alnum_ranges. cbn [existsb].
  unfold in_range. cbn [fst snd].
  change (nat_of_ascii "a") with 97. change (nat_of_ascii "z") with 122.
  change (nat_of_ascii "A") with 65. change (nat_of_ascii "Z") with 90.
  change (nat_of_ascii "0") with 48. change (nat_of_ascii "9") with 57.
  rewrite orb_false_r, !orb_true_iff, !andb_true_iff, !Nat.leb_le. tauto.
Qed.

Lemma str_forall_Forall (f : ascii → bool) s :
  str_forall f s = true ↔ Forall (λ c, f c = true) (String.list_ascii_of_string s).
Proof.
  induction s as [|c s IH]; simpl.
  - split; [constructor|done].
  - rewrite andb_true_iff, Forall_cons, IH. done.
Qed.

Lemma valid_name_forall s :
  valid_name s ↔ s ≠ "" ∧ str_forall (in_class alnum_ranges) s = true.
Proof.
  unfold valid_name. rewrite str_forall_Forall.
  split; intros [? H]; (split; [done|]);
    eapply Forall_impl; [apply H| |apply H|]; intros c; apply in_class_alnum.
Qed.

Lemma valid_name_span s :
  valid_name s ↔
  1 ≤ span (in_class alnum_ranges) s ∧ str_drop (span (in_class alnum_ranges) s) s = "".
Proof.
  rewrite valid_name_forall, str_drop_nil_iff, <-span_all.
  pose proof (span_le (in_class alnum_ranges) s).
  destruct s as [|c s]; simpl in *; [intuition lia|].
  destruct (in_class alnum_ranges c); simpl; split; intros [??]; split; (done || lia).
Qed.

Lemma valid_name_app_inv s c u :
  valid_name s → in_class alnum_ranges c = false →
  span (in_class alnum_ranges) (s +:+ String c u) = String.length s.
Proof.
  intros [_ Hs]%valid_name_forall Hc. by apply span_app_stop.
Qed.

Lemma valid_name_length s : valid_name s → 1 ≤ String.length s.
Proof. intros [H _]. destruct s; [done|simpl; lia]. Qed.

End name_facts.


(* ===================================================================== *)
(** * What the route pattern accepts                                      *)
(* ===================================================================== *)

(** One case per operation keyword. *)
Ltac case_operation H :=
  unfold operations in H;
  apply elem_of_cons in H as [->|H];
    [|apply elem_of_cons in H as [->|H];
      [|apply list_elem_of_singleton in H as ->]].

Section route_facts.
Implicit Types (s l path op name : string) (t : thread) (p : nat).

Lemma run_Literal_app l s p cs :
  run (Literal l) (Thread p (l +:+ s) cs) = [Thread (p + String.length l) s cs].
Proof.
  rewrite run_Literal. cbn [rest]. rewrite str_prefix_app.
  unfold advance. cbn [pos rest caps]. by rewrite str_drop_app.
Qed.

Lemma run_Literal_mismatch c l c' s p cs :
  c ≠ c' → run (Literal (String c l)) (Thread p (String c' s) cs) = [].
Proof.
  intros Hc. rewrite run_Literal. cbn [rest String.prefix].
  by destruct (ascii_dec c c').
Qed.

Lemma elem_of_run_Literal l t t' :
  t' ∈ run (Literal l) t →
  rest t = l +:+ rest t' ∧ pos t' = pos t + String.length l ∧ caps t' = caps t.
Proof.
  rewrite run_Literal. destruct (String.prefix l (rest t)) eqn:Hp.
  - intros ->%list_elem_of_singleton. by apply str_prefix_inv in Hp.
  - by intros ?%elem_of_nil.
Qed.

Lemma search_eq re p s :
  search re p s
  = match run re (Thread p s []) with
    | t :: _ => Some (p, s, t)
    | [] => match s with "" => None | String _ s' => search re (S p) s' end
    end.
Proof. by destruct s. Qed.

(** A pattern that starts with [^] matches at offset 0 or nowhere. *)
Lemma run_BeginText_later r p s cs :
  p ≠ 0 → run (Concat BeginText r) (Thread p s cs) = [].
Proof.
  intros Hp. rewrite run_Concat, run_BeginText. cbn [pos].
  by rewrite decide_False.
Qed.

Lemma search_BeginText_later r p s :
  p ≠ 0 → search (Concat BeginText r) p s = None.
Proof.
  revert p. induction s as [|c s IH]; intros p Hp;
    rewrite search_eq, run_BeginText_later by done; [done|].
  by apply IH.
Qed.

Lemma search_BeginText r s :
  search (Concat BeginText r) 0 s
  = (λ t, (0, s, t)) <$> head (run (Concat BeginText r) (Thread 0 s [])).
Proof.
  rewrite search_eq.
  destruct (run (Concat BeginText r) (Thread 0 s [])) as [|t l]; [|done].
  destruct s as [|c s]; [done|]. by apply search_BeginText_later.
Qed.

(** The name group followed by [$]. *)
Lemma run_name_EndText t :
  run (Concat (Capture 2 (Plus alnum)) EndText) t
  = if decide (valid_name (rest t))
    then [Thread (pos t + String.length (rest t)) "" ((2, rest t) :: caps t)]
    else [].
Proof.
  unfold alnum.
  rewrite (run_capture_plus_test 2 alnum_ranges EndText
             (λ s, bool_decide (s = "")) id).
  - cbn zeta. destruct (decide (valid_name (rest t))) as [Hv|Hv].
    + pose proof Hv as [Hn Hd]%valid_name_span.
      rewrite (bool_decide_eq_true_2 _ Hn), (bool_decide_eq_true_2 _ Hd), Hd.
      apply str_drop_nil_iff in Hd.
      pose proof (span_le (in_class alnum_ranges) (rest t)).
      replace (span (in_class alnum_ranges) (rest t))
        with (String.length (rest t)) by lia.
      by rewrite str_take_all.
    + destruct (bool_decide (1 ≤ _)) eqn:Hn; [|done].
      destruct (bool_decide (str_drop _ _ = "")) eqn:Hd; [|done].
      apply bool_decide_eq_true in Hn, Hd. destruct Hv.
      by apply valid_name_span.
  - intros t'. apply run_EndText.
  - done.
Qed.

(** After the keyword: the separator, the name and the end of the text. *)
Local Ltac name_tail :=
  rewrite run_Concat, run_Literal_app, bind_singleton, run_name_EndText;
  cbn [pos rest caps]; by destruct (decide (valid_name _)).

(** On a path built from a keyword and a name, the pattern finds exactly
    one match, or none when the name is not valid. *)
Lemma run_validPath_op op name :
  op ∈ operations →
  run validPath (Thread 0 ("/" +:+ op +:+ "/" +:+ name) [])
  = if decide (valid_name name)
    then [Thread (6 + String.length name) "" [(2, name); (1, op)]]
    else [].
Proof.
  intros Hop. unfold validPath.
  rewrite run_Concat, run_BeginText. cbn [pos]. rewrite decide_True by done.
  rewrite bind_singleton, run_Concat, run_Literal_app, bind_singleton.
  rewrite run_Concat, run_Capture, !run_Alternate. cbn [pos rest caps].
  assert (∀ E (k : thread → list thread),
    E = [Thread 5 ("/" +:+ name) [(1, op)]] →
    (E ≫= k) = k (Thread 5 ("/" +:+ name) [(1, op)])) as Hstep
    by (intros ?? ->; apply bind_singleton).
  case_operation Hop; (rewrite Hstep; [name_tail|]).
  - rewrite run_Literal_app. str_norm.
    by rewrite !run_Literal_mismatch by done.
  - rewrite (run_Literal_app "save"). str_norm.
    by rewrite !run_Literal_mismatch by done.
  - rewrite (run_Literal_app "view"). str_norm.
    by rewrite !run_Literal_mismatch by done.
Qed.

Lemma search_validPath s :
  search validPath 0 s
  = (λ t, (0, s, t)) <$> head (run validPath (Thread 0 s [])).
Proof. apply search_BeginText. Qed.

(** Conversely, a match of the pattern exhibits the keyword and the name. *)
Lemma run_validPath_inv path t :
  t ∈ run validPath (Thread 0 path []) →
  ∃ op name,
    op ∈ operations ∧ valid_name name ∧ path = "/" +:+ op +:+ "/" +:+ name.
Proof.
  unfold validPath. rewrite run_Concat.
  intros (t0 & Ha & Ht0)%list_elem_of_bind.
  rewrite run_BeginText in Ht0. cbn [pos] in Ht0.
  rewrite decide_True in Ht0 by done.
  apply list_elem_of_singleton in Ht0 as ->.
  rewrite run_Concat in Ha. apply list_elem_of_bind in Ha as (t1 & Hb & Ht1).
  apply elem_of_run_Literal in Ht1 as (Hpath & _ & _). cbn [rest] in Hpath.
  rewrite run_Concat in Hb. apply list_elem_of_bind in Hb as (t2 & Hc & Ht2).
  rewrite run_Capture in Ht2.
  apply list_elem_of_fmap in Ht2 as (t2' & -> & Ht2).
  rewrite run_Concat in Hc. apply list_elem_of_bind in Hc as (t3 & Hd & Ht3).
  apply elem_of_run_Literal in Ht3 as (Hsep & _ & _). cbn [rest] in Hsep.
  rewrite run_name_EndText in Hd.
  destruct (decide (valid_name (rest t3))) as [Hv|]; [|by apply elem_of_nil in Hd].
  assert (∃ op, op ∈ operations ∧ rest t1 = op +:+ rest t2') as (op & Hop & Hrest).
  { rewrite !run_Alternate, !elem_of_app in Ht2. unfold operations.
    destruct Ht2 as [H|[H|H]]; apply elem_of_run_Literal in H as (H' & _);
      eexists; (split; [|exact H']); rewrite !elem_of_cons; auto. }
  exists op, (rest t3). split_and!; [done..|].
  by rewrite Hpath, Hrest, Hsep.
Qed.

(** [validPath.FindStringSubmatch(path)] is non-nil exactly on the paths
    "/" keyword "/" name, and then holds the path, the keyword and the name. *)
Lemma FindStringSubmatch_validPath_op op name :
  op ∈ operations →
  FindStringSubmatch validPath ("/" +:+ op +:+ "/" +:+ name)
  = if decide (valid_name name)
    then Some ["/" +:+ op +:+ "/" +:+ name; op; name]
    else None.
Proof.
  intros Hop. unfold FindStringSubmatch.
  rewrite search_validPath, run_validPath_op by done.
  destruct (decide (valid_name name)); [|done].
  cbn [head fmap option_fmap option_map mbind option_bind pos caps].
  f_equal. f_equal.
  rewrite Nat.sub_0_r.
  replace (6 + String.length name)
    with (String.length ("/" +:+ op +:+ "/" +:+ name)); [apply str_take_all|].
  rewrite !str_length_app. case_operation Hop; simpl; lia.
Qed.

Lemma FindStringSubmatch_validPath path m :
  FindStringSubmatch validPath path = Some m ↔
  ∃ op name,
    op ∈ operations ∧ valid_name name ∧
    path = "/" +:+ op +:+ "/" +:+ name ∧ m = [path; op; name].
Proof.
  split.
  - intros Hm.
    assert (∃ t, t ∈ run validPath (Thread 0 path [])) as [t Ht].
    { unfold FindStringSubmatch in Hm. rewrite search_validPath in Hm.
      destruct (run validPath (Thread 0 path [])) as [|t l]; [done|].
      exists t. set_solver. }
    apply run_validPath_inv in Ht as (op & name & Hop & Hv & ->).
    rewrite FindStringSubmatch_validPath_op, decide_True in Hm by done.
    exists op, name. by simplify_eq.
  - intros (op & name & Hop & Hv & -> & ->).
    by rewrite FindStringSubmatch_validPath_op, decide_True.
Qed.

Lemma FindStringSubmatch_validPath_None path :
  FindStringSubmatch validPath path = None ↔
  ¬ ∃ op name,
      op ∈ operations ∧ valid_name name ∧ path = "/" +:+ op +:+ "/" +:+ name.
Proof.
  split.
  - intros Hm (op & name & Hop & Hv & ->).
    by rewrite FindStringSubmatch_validPath_op, decide_True in Hm.
  - intros Hno. destruct (FindStringSubmatch validPath path) as [m|] eqn:Hm; [|done].
    apply FindStringSubmatch_validPath in Hm as (op & name & ? & ? & ? & _).
    destruct Hno. eauto.
Qed.

End route_facts.


(* ===================================================================== *)
(** * Where a page is stored                                              *)
(* ===================================================================== *)

Section path_facts.
Implicit Types (s base n : string) (c : ascii).

Lemma Split_no_slash s : no_slash s → strings.Split s "/" = [s].
Proof.
  unfold no_slash. induction s as [|c s IH]; [done|].
  cbn [str_forall strings.Split]. intros [Hc Hs]%andb_prop.
  apply bool_decide_eq_true in Hc.
  rewrite decide_False by done. by rewrite IH.
Qed.

Lemma Split_data base :
  strings.Split ("data/" +:+ base) "/" = "data" :: strings.Split base "/".
Proof. reflexivity. Qed.

Lemma through_last_sep_no_slash s : no_slash s → os.through_last_sep s = "".
Proof.
  unfold no_slash. induction s as [|c s IH]; [done|].
  cbn [str_forall os.through_last_sep]. intros [Hc Hs]%andb_prop.
  apply bool_decide_eq_true in Hc.
  rewrite IH by done. by rewrite decide_False.
Qed.

Lemma no_slash_app s1 s2 : no_slash s1 → no_slash s2 → no_slash (s1 +:+ s2).
Proof.
  unfold no_slash. intros H1 H2. by rewrite str_forall_app, H1, H2.
Qed.

Lemma Clean_data base :
  entry_like base → filepath.Clean ("data/" +:+ base) = "data/" +:+ base.
Proof.
  intros (Hns & H0 & H1 & H2). unfold filepath.Clean.
  change (String.prefix "/" ("data/" +:+ base)) with false. cbv iota.
  rewrite Split_data, Split_no_slash by done.
  cbn [filepath.clean_elems].
  rewrite (decide_False (P := "data" = "" ∨ "data" = ".")) by (by intros [|]).
  rewrite (decide_False (P := "data" = "..")) by done.
  cbn [filepath.clean_elems].
  rewrite (decide_False (P := base = "" ∨ base = ".")) by tauto.
  rewrite (decide_False (P := base = "..")) by done.
  reflexivity.
Qed.

Lemma Join_data base :
  entry_like base → filepath.Join [savePath; base] = "data/" +:+ base.
Proof.
  intros H. unfold filepath.Join, savePath.
  rewrite decide_False by done. by apply Clean_data.
Qed.

Lemma parent_data base : no_slash base → os.parent ("data/" +:+ base) = "data".
Proof.
  intros H. unfold os.parent.
  assert (os.through_last_sep ("data/" +:+ base) = "data/") as ->; [|done].
  str_norm. cbn [os.through_last_sep]. by rewrite through_last_sep_no_slash.
Qed.

Lemma valid_name_no_slash n : valid_name n → no_slash n.
Proof.
  intros [_ H]%valid_name_forall. unfold no_slash.
  induction n as [|c n IH]; [done|]. cbn [str_forall] in *.
  apply andb_prop in H as [Hc Hn]. rewrite IH by done.
  rewrite andb_true_r. apply bool_decide_eq_true. by intros ->.
Qed.

Lemma txt_entry_like n : no_slash n → entry_like (n +:+ ".txt").
Proof.
  intros Hn. split; [by apply no_slash_app|].
  assert (4 ≤ String.length (n +:+ ".txt")) as Hlen
    by (rewrite str_length_app; simpl; lia).
  split_and!; intros Heq; rewrite Heq in Hlen; simpl in Hlen; lia.
Qed.

(** The record of page [n]: the file [n.txt] of the data directory. *)
Lemma page_path n :
  no_slash n →
  filepath.Join [savePath; n +:+ ".txt"] = "data/" +:+ n +:+ ".txt".
Proof. intros. by apply Join_data, txt_entry_like. Qed.

Lemma stat_data (fs : gmap string os.node) base :
  os.stat fs ("data/" +:+ base) = fs !! ("data/" +:+ base).
Proof. unfold os.stat. by rewrite decide_False by (by intros [|]). Qed.

Lemma no_nul_app s1 s2 : no_nul (s1 +:+ s2) ↔ no_nul s1 ∧ no_nul s2.
Proof. unfold no_nul. by rewrite str_forall_app, andb_true_iff. Qed.

Lemma valid_name_no_nul n : valid_name n → no_nul n.
Proof.
  intros [_ H]%valid_name_forall. unfold no_nul.
  induction n as [|c n IH]; [done|]. cbn [str_forall] in *.
  apply andb_prop in H as [Hc Hn]. rewrite IH by done.
  rewrite andb_true_r. apply bool_decide_eq_true. by intros ->.
Qed.

Lemma page_file_no_nul n : no_nul (page_file n) ↔ no_nul n.
Proof.
  unfold page_file. rewrite !no_nul_app.
  assert (no_nul "data/" ∧ no_nul ".txt") as [??] by done. tauto.
Qed.

(** The way to an entry of the data directory. *)
Lemma walk_data (fs : gmap string os.node) base :
  entry_like base → fs !! ("data/" +:+ base) = None →
  os.walk fs "" ["data"; base]
  = match fs !! "data" with
    | Some os.Dir =>
        if decide (os.NAME_MAX < String.length base)
        then os.Refused os.ENAMETOOLONG else os.Free
    | Some (os.File _) => os.Refused os.ENOTDIR
    | None => os.Refused os.ENOENT
    end.
Proof.
  intros (_ & H0 & _ & H2) Hnone. cbn [os.walk].
  rewrite (decide_False (P := "data" = "" ∨ "data" = "..")) by (by intros [|]).
  rewrite (decide_False (P := os.NAME_MAX < String.length "data"))
    by (unfold os.NAME_MAX; simpl; lia).
  change ("" +:+ "data") with "data".
  destruct (fs !! "data") as [[]|]; [done| |done].
  rewrite (decide_False (P := base = "" ∨ base = "..")) by tauto.
  destruct (decide _); [done|].
  change (("data" +:+ "/") +:+ base) with ("data/" +:+ base). by rewrite Hnone.
Qed.

(** What the system finds at the record of page [n]. *)
Lemma resolve_page (fs : gmap string os.node) n :
  no_slash n →
  os.resolve fs (page_file n)
  = if decide (no_nul n) then
      match fs !! page_file n with
      | Some nd => os.Found nd
      | None =>
          if decide (os.PATH_MAX ≤ String.length (page_file n))
          then os.Refused os.ENAMETOOLONG
          else
            match fs !! "data" with
            | Some os.Dir =>
                if decide (os.NAME_MAX < String.length (n +:+ ".txt"))
                then os.Refused os.ENAMETOOLONG else os.Free
            | Some (os.File _) => os.Refused os.ENOTDIR
            | None => os.Refused os.ENOENT
            end
      end
    else os.Refused os.EINVAL.
Proof.
  intros Hn. unfold os.resolve.
  rewrite (decide_False (P := page_file n = "")) by done.
  destruct (decide (no_nul n)) as [Hnul|Hnul].
  - rewrite decide_True by (by apply page_file_no_nul).
    unfold page_file. rewrite Clean_data by (by apply txt_entry_like).
    rewrite stat_data.
    destruct (fs !! ("data/" +:+ n +:+ ".txt")) as [nd|] eqn:Hkey; [done|].
    destruct (decide (os.PATH_MAX ≤ _)); [done|].
    rewrite Split_data, Split_no_slash by (by apply txt_entry_like).
    apply walk_data; [by apply txt_entry_like|done].
  - by rewrite decide_False by (by rewrite page_file_no_nul).
Qed.

End path_facts.

(* ===================================================================== *)
(** * The page store                                                      *)
(* ===================================================================== *)

Section store_facts.
Implicit Types (n : string) (c : list Byte.byte) (σ : os.World)
  (fs : gmap string os.node).

Lemma WriteFile_page n c perm σ :
  no_slash n →
  os.WriteFile (page_file n) c perm σ
  = let σ1 := os.log (os.CallWriteFile (page_file n)) σ in
    let fail e :=
      (Some {| os.Op := "open"; os.Path := page_file n; os.Err := e |}, σ1) in
    match os.resolve (os.files σ) (page_file n) with
    | os.Found os.Dir => fail os.EISDIR
    | os.Found (os.File _) | os.Free =>
        (None, {| os.files := <[page_file n := os.File c]> (os.files σ);
                  os.calls := os.calls σ1 |})
    | os.Refused e => fail e
    end.
Proof.
  intros Hn. unfold os.WriteFile. cbn [os.files os.log].
  assert (filepath.Clean (page_file n) = page_file n) as ->; [|done].
  by apply Clean_data, txt_entry_like.
Qed.

Lemma ReadFile_page n σ :
  os.ReadFile (page_file n) σ
  = let σ1 := os.log (os.CallReadFile (page_file n)) σ in
    let fail op e :=
      (inr {| os.Op := op; os.Path := page_file n; os.Err := e |}, σ1) in
    match os.resolve (os.files σ) (page_file n) with
    | os.Found (os.File data) => (inl data, σ1)
    | os.Found os.Dir => fail "read" os.EISDIR
    | os.Free => fail "open" os.ENOENT
    | os.Refused e => fail "open" e
    end.
Proof. reflexivity. Qed.

Lemma save_eq n c σ :
  no_slash n →
  save {| Title := n; Body := c |} σ
  = let '(err, σ') := os.WriteFile (page_file n) c perm_0600 σ in
    (PathErr <$> err, σ').
Proof.
  intros Hn. unfold save. cbn [Title Body]. by rewrite page_path.
Qed.

Lemma loadPage_eq n σ :
  no_slash n →
  loadPage n σ
  = let '(res, σ') := os.ReadFile (page_file n) σ in
    match res with
    | inl body => (inl {| Title := n; Body := body |}, σ')
    | inr err => (inr (PathErr err), σ')
    end.
Proof.
  intros Hn. unfold loadPage. rewrite page_path by done.
  unfold mbind, IO_bind. by destruct (os.ReadFile _ _) as [[?|?] ?].
Qed.

(** The system finds a file or a free name where a record can be stored,
    and a directory or no way where none can. *)
Lemma resolve_storable fs n :
  no_slash n →
  match os.resolve fs (page_file n) with
  | os.Found (os.File _) | os.Free => storable fs n
  | os.Found os.Dir | os.Refused _ => ¬ storable fs n
  end.
Proof.
  intros Hn. rewrite resolve_page by done. unfold storable.
  destruct (decide (no_nul n)) as [Hnul|Hnul]; [|tauto].
  destruct (fs !! page_file n) as [[]|]; [tauto..|].
  assert (String.length (page_file n) = 5 + String.length (n +:+ ".txt")) as Hlen
    by (unfold page_file; by rewrite str_length_app).
  unfold os.PATH_MAX, os.NAME_MAX in *.
  destruct (decide (4096 ≤ _)); [lia|].
  destruct (fs !! "data") as [[]|]; [by intros [? [? ?]]| |by intros [? [? ?]]].
  destruct (decide (255 < _)); [lia|]. split_and!; [done..|lia].
Qed.

(** [put] succeeds exactly when the store can take the record, and then the
    record holds the content; it never changes the store when it fails. *)
Lemma save_ok n c σ :
  no_slash n → storable (os.files σ) n →
  save {| Title := n; Body := c |} σ
  = (None, {| os.files := <[page_file n := os.File c]> (os.files σ);
              os.calls := os.calls σ ++ [os.CallWriteFile (page_file n)] |}).
Proof.
  intros Hn Hw. rewrite save_eq, WriteFile_page by done. cbn zeta.
  pose proof (resolve_storable (os.files σ) n Hn) as Hr.
  by destruct (os.resolve _ _) as [[]| |].
Qed.

Lemma save_fail n c σ :
  no_slash n → ¬ storable (os.files σ) n →
  ∃ err,
    save {| Title := n; Body := c |} σ
    = (Some err, {| os.files := os.files σ;
                    os.calls := os.calls σ ++ [os.CallWriteFile (page_file n)] |}).
Proof.
  intros Hn Hw. rewrite save_eq, WriteFile_page by done. cbn zeta.
  pose proof (resolve_storable (os.files σ) n Hn) as Hr.
  destruct (os.resolve _ _) as [[]| |]; [done|eauto|done|eauto].
Qed.

Lemma save_inv n c σ σ' :
  no_slash n →
  save {| Title := n; Body := c |} σ = (None, σ') →
  storable (os.files σ) n.
Proof.
  intros Hn Hs. destruct (decide (storable (os.files σ) n)); [done|].
  destruct (save_fail n c σ) as [err Herr]; [done..|]. congruence.
Qed.

(** For a valid name, what is asked of the store is that a file is there or
    can be made. *)
Lemma storable_valid fs n :
  valid_name n →
  storable fs n ↔
  writable fs (page_file n) ∧
  (fs !! page_file n = None → String.length n + 4 ≤ os.NAME_MAX).
Proof.
  intros Hv. pose proof (valid_name_no_nul n Hv) as Hnul.
  unfold storable, writable. rewrite str_length_app. simpl String.length.
  destruct (fs !! page_file n) as [[]|].
  - split; [by intros [_ _]|by intros [_ Hlen]].
  - tauto.
  - split; [by intros [_ [? ?]]|intros [? Hlen]; auto].
Qed.

Lemma loadPage_found n c σ :
  no_slash n → no_nul n → os.files σ !! page_file n = Some (os.File c) →
  loadPage n σ
  = (inl {| Title := n; Body := c |},
     {| os.files := os.files σ;
        os.calls := os.calls σ ++ [os.CallReadFile (page_file n)] |}).
Proof.
  intros Hn Hnul Hf. rewrite loadPage_eq, ReadFile_page by done. cbn zeta.
  by rewrite resolve_page, decide_True, Hf.
Qed.

Lemma loadPage_missing n σ :
  no_slash n → (∀ c, os.files σ !! page_file n ≠ Some (os.File c)) →
  ∃ err,
    loadPage n σ
    = (inr err,
       {| os.files := os.files σ;
          os.calls := os.calls σ ++ [os.CallReadFile (page_file n)] |}).
Proof.
  intros Hn Hf. rewrite loadPage_eq, ReadFile_page by done. cbn zeta.
  rewrite resolve_page by done.
  destruct (decide (no_nul n)); [|eauto].
  destruct (os.files σ !! page_file n) as [[d|]|]; [by destruct (Hf d)|eauto|].
  destruct (decide _); [eauto|].
  destruct (os.files σ !! "data") as [[]|]; eauto.
  destruct (decide _); eauto.
Qed.

End store_facts.

(* ===================================================================== *)
(** * The link transform                                                  *)
(* ===================================================================== *)

Section link_facts.
Implicit Types (s pre post name : string) (c : ascii) (n k p : nat).

Lemma span_app_stop_gen f s c u :
  f c = false → span f (s +:+ String c u) = span f s.
Proof.
  intros Hc. induction s as [|c' s IH].
  - rewrite str_app_nil_l. simpl. by rewrite Hc.
  - rewrite str_app_cons. simpl. by rewrite IH.
Qed.

Lemma str_take_app_le n s u :
  n ≤ String.length s → str_take n (s +:+ u) = str_take n s.
Proof.
  revert s. induction n as [|n IH]; intros s Hn.
  - by rewrite !str_take_0.
  - destruct s as [|c s]; [simpl in Hn; lia|].
    rewrite str_app_cons. simpl. rewrite IH; [done|]. simpl in Hn. lia.
Qed.

Lemma str_drop_app_lt n s u :
  n ≤ String.length s → str_drop n (s +:+ u) = str_drop n s +:+ u.
Proof.
  revert s. induction n as [|n IH]; intros s Hn.
  - by rewrite !str_drop_0.
  - destruct s as [|c s]; [simpl in Hn; lia|].
    rewrite str_app_cons. simpl. apply IH. simpl in Hn. lia.
Qed.

Lemma run_linkPattern p s :
  run linkPattern (Thread p s [])
  = match marker_at s with
    | Some n =>
        [Thread (p + (n + 2)) (str_drop (n + 2) s)
           [(1, str_take n (str_drop 1 s))]]
    | None => []
    end.
Proof.
  unfold linkPattern. rewrite run_Concat.
  destruct s as [|c s].
  { by rewrite run_Literal. }
  cbn [marker_at].
  destruct (decide (c = "["%char)) as [->|Hc].
  - change (String "[" s) with ("[" +:+ s).
    rewrite run_Literal_app, bind_singleton. unfold alnum.
    rewrite (run_capture_plus_test 1 alnum_ranges (Literal "]")
               (λ s, String.prefix "]" s) (advance 1)).
    + cbn [pos rest caps]. set (n := span (in_class alnum_ranges) s).
      destruct (decide (1 ≤ n)) as [Hn|Hn].
      * rewrite (bool_decide_eq_true_2 _ Hn). cbn [andb].
        destruct (String.prefix "]" (str_drop n s)) eqn:Hp.
        -- rewrite decide_True by done. unfold advance. cbn [pos rest caps].
           rewrite str_drop_drop. simpl.
           by replace (p + 1 + n + 1) with (p + (n + 2)) by lia;
              replace (n + 1) with (S n) by lia;
              replace (n + 2) with (S (S n)) by lia.
        -- by rewrite decide_False by (intros (_ & _ & ?); done).
      * rewrite (bool_decide_eq_false_2 _ Hn). cbn [andb].
        by rewrite decide_False by (intros (_ & ? & _); done).
    + intros t'. apply run_Literal.
    + intros c u Hc. cbn [String.prefix].
      destruct (ascii_dec "]" c) as [<-|]; done.
  - rewrite run_Literal_mismatch by done.
    by rewrite decide_False by (intros (? & _); done).
Qed.

(** The loop of [ReplaceAllStringFunc] on the link pattern is the scan. *)
Lemma replace_loop_link p last s :
  replace_loop linkPattern linkRepl p last s = link_scan (last - p) s.
Proof.
  revert p last. induction s as [|c s IH]; intros p last.
  - cbn [replace_loop link_scan]. rewrite run_linkPattern. cbn [marker_at head].
    by destruct (decide (p < last)).
  - cbn [replace_loop]. destruct (decide (p < last)) as [Hlt|Hge].
    + rewrite IH. replace (last - p) with (S (last - S p)) by lia. done.
    + rewrite run_linkPattern. replace (last - p) with 0 by lia.
      cbn [link_scan]. destruct (marker_at (String c s)) as [n|]; cbn [head pos].
      * rewrite decide_True by lia. rewrite decide_True by lia.
        rewrite IH. str_norm.
        by replace (p + (n + 2) - p) with (n + 2) by lia;
           replace (p + (n + 2) - S p) with (n + 1) by lia.
      * rewrite IH. by replace (last - S p) with 0 by lia.
Qed.

Lemma processLinks_scan s :
  processLinks (String.list_byte_of_string s) = link_scan 0 s.
Proof.
  unfold processLinks, ReplaceAllStringFunc.
  by rewrite String.string_of_list_byte_of_string, replace_loop_link.
Qed.

Lemma in_class_alnum_bracket : in_class alnum_ranges "]" = false.
Proof. reflexivity. Qed.

Lemma in_class_alnum_open : in_class alnum_ranges "[" = false.
Proof. reflexivity. Qed.

(** A marker starts [s] exactly when [s] is a bracketed valid name followed
    by anything. *)
Lemma marker_at_marker name post :
  valid_name name →
  marker_at (marker name +:+ post) = Some (String.length name).
Proof.
  intros Hv. unfold marker. rewrite !str_app_assoc. str_norm. cbn [marker_at].
  rewrite (valid_name_app_inv name "]" post Hv in_class_alnum_bracket).
  rewrite str_drop_app. apply decide_True.
  split_and!; [done|by apply valid_name_length|apply (str_prefix_app "]")].
Qed.

Lemma marker_at_inv s n :
  marker_at s = Some n →
  ∃ name post,
    valid_name name ∧ String.length name = n ∧ s = marker name +:+ post.
Proof.
  destruct s as [|c s]; [done|]. cbn [marker_at].
  set (m := span (in_class alnum_ranges) s).
  destruct (decide _) as [(-> & Hm & Hp)|]; [|done]. intros [= <-].
  apply str_prefix_inv in Hp. cbn [String.length] in Hp.
  pose proof (span_le (in_class alnum_ranges) s) as Hle. fold m in Hle.
  exists (str_take m s), (str_drop 1 (str_drop m s)). split_and!.
  - apply valid_name_forall. split.
    + intros Hnil. pose proof (str_length_take m s) as Hl.
      rewrite Hnil in Hl. simpl in Hl. lia.
    + apply span_take.
  - rewrite str_length_take. lia.
  - unfold marker. rewrite !str_app_assoc. str_norm. f_equal.
    change (String "]" ?u) with ("]" +:+ u).
    rewrite <-Hp. by rewrite str_take_drop.
Qed.

Lemma linkRepl_marker name : linkRepl (marker name) = link_to name.
Proof.
  unfold linkRepl, link_to, marker.
  assert (str_drop 1 (str_take (String.length ("[" +:+ name +:+ "]") - 1)
                        ("[" +:+ name +:+ "]")) = name) as ->; [|done].
  str_norm. cbn [String.length]. rewrite Nat.sub_succ, Nat.sub_0_r.
  cbn [str_take str_drop].
  replace (String.length (name +:+ "]")) with (S (String.length name))
    by (rewrite str_length_app; simpl; lia).
  cbn [str_take str_drop]. apply str_take_app.
Qed.

Lemma str_take_marker name post :
  str_take (String.length name + 2) (marker name +:+ post) = marker name.
Proof.
  replace (String.length name + 2) with (String.length (marker name)).
  - apply str_take_app.
  - unfold marker. rewrite !str_length_app. simpl. lia.
Qed.

(** Bytes passed over do not matter. *)
Lemma link_scan_skip s post : link_scan (String.length s) (s +:+ post) = link_scan 0 post.
Proof.
  induction s as [|c s IH]; [done|]. rewrite str_app_cons. by cbn.
Qed.

(** What starts before a marker is decided before it. *)
Lemma marker_at_before c pre u :
  marker_at (String c pre +:+ String "[" u) = marker_at (String c pre).
Proof.
  rewrite str_app_cons. cbn [marker_at].
  rewrite span_app_stop_gen by apply in_class_alnum_open.
  set (n := span (in_class alnum_ranges) pre).
  pose proof (span_le (in_class alnum_ranges) pre) as Hle. fold n in Hle.
  rewrite str_drop_app_lt by done.
  assert (String.prefix "]" (str_drop n pre +:+ String "[" u)
          = String.prefix "]" (str_drop n pre)) as ->; [|done].
  destruct (str_drop n pre) as [|a r]; [done|].
  rewrite str_app_cons. cbn [String.prefix].
  destruct (ascii_dec "]" a); [|done]. by rewrite !str_prefix_nil.
Qed.

Lemma marker_at_length c pre n :
  marker_at (String c pre) = Some n → n + 1 ≤ String.length pre.
Proof.
  cbn [marker_at]. destruct (decide _) as [(_ & _ & Hp)|]; [|done].
  intros [= <-]. set (n := span (in_class alnum_ranges) pre) in *.
  pose proof (str_length_drop n pre) as Hl.
  destruct (str_drop n pre); [done|]. simpl in Hl. lia.
Qed.

(** A marker splits the scan: what is before it and what is after it are
    transformed on their own. *)
Lemma link_scan_marker k pre name post :
  valid_name name → k ≤ String.length pre →
  link_scan k (pre +:+ marker name +:+ post)
  = link_scan k pre +:+ link_to name +:+ link_scan 0 post.
Proof.
  intros Hv. revert k. induction pre as [|c pre IH]; intros k Hk.
  - simpl in Hk. replace k with 0 by lia. str_norm.
    assert (∃ u, marker name +:+ post = String "[" u) as [u Hu]
      by (unfold marker; eexists; reflexivity).
    rewrite Hu at 1. cbn [link_scan]. rewrite <-Hu.
    rewrite marker_at_marker, str_take_marker, linkRepl_marker by done.
    f_equal. injection Hu as <-. rewrite str_app_assoc.
    replace (String.length name + 1) with (String.length (name +:+ "]"))
      by (rewrite str_length_app; simpl; lia).
    rewrite <-str_app_assoc. apply link_scan_skip.
  - rewrite str_app_cons. destruct k as [|k]; cbn [link_scan].
    + rewrite <-str_app_cons.
      assert (∃ u, marker name +:+ post = String "[" u) as [u Hu]
        by (unfold marker; eexists; reflexivity).
      rewrite Hu at 1. rewrite marker_at_before.
      destruct (marker_at (String c pre)) as [n|] eqn:Hm.
      * apply marker_at_length in Hm.
        rewrite IH by lia. rewrite str_app_assoc.
        rewrite str_take_app_le by (simpl; lia). done.
      * rewrite IH by lia. done.
    + apply IH. simpl in Hk. lia.
Qed.

Lemma has_marker_inside s : has_marker s ↔ marker_inside s = true.
Proof.
  split.
  - intros (pre & name & post & Hv & ->).
    induction pre as [|c pre IH].
    + rewrite str_app_nil_l.
      assert (∃ u, marker name +:+ post = String "[" u) as [u Hu]
        by (unfold marker; eexists; reflexivity).
      rewrite Hu. cbn [marker_inside]. rewrite <-Hu.
      rewrite marker_at_marker by done.
      by rewrite bool_decide_eq_true_2 by eauto.
    + rewrite str_app_cons. cbn [marker_inside]. rewrite IH. apply orb_true_r.
  - induction s as [|c s IH]; [done|]. cbn [marker_inside].
    intros [Hm|Hs]%orb_true_iff.
    + apply bool_decide_eq_true in Hm as [n Hm].
      apply marker_at_inv in Hm as (name & post & Hv & _ & Hs).
      exists "", name, post. by rewrite str_app_nil_l.
    + destruct (IH Hs) as (pre & name & post & Hv & ->).
      by exists (String c pre), name, post.
Qed.

(** Without a marker the scan copies its input. *)
Lemma link_scan_plain s : ¬ has_marker s → link_scan 0 s = s.
Proof.
  induction s as [|c s IH]; intros Hno; [done|]. cbn [link_scan].
  destruct (marker_at (String c s)) as [n|] eqn:Hm.
  - apply marker_at_inv in Hm as (name & post & Hv & _ & Hs).
    destruct Hno. exists "", name, post. by rewrite str_app_nil_l.
  - rewrite IH; [done|]. intros (pre & name & post & Hv & ->).
    destruct Hno. exists (String c pre), name, post. done.
Qed.

End link_facts.

(* ===================================================================== *)
(** * The listing                                                         *)
(* ===================================================================== *)

Section listing_facts.
Implicit Types (s u n key base : string) (fs : gmap string os.node)
  (e : os.DirEntry) (σ : os.World).

Lemma HasSuffix_iff s suf :
  strings.HasSuffix s suf = true ↔ ∃ u, s = u +:+ suf.
Proof.
  unfold strings.HasSuffix. rewrite andb_true_iff, !bool_decide_eq_true. split.
  - intros [Hlen Hdrop].
    exists (str_take (String.length s - String.length suf) s).
    rewrite <-Hdrop at 2. by rewrite str_take_drop.
  - intros [u ->]. rewrite str_length_app. split; [lia|].
    replace (String.length u + String.length suf - String.length suf)
      with (String.length u) by lia.
    apply str_drop_app.
Qed.

Lemma TrimSuffix_app u suf : strings.TrimSuffix (u +:+ suf) suf = u.
Proof.
  unfold strings.TrimSuffix.
  rewrite (proj2 (HasSuffix_iff (u +:+ suf) suf)) by eauto.
  rewrite str_length_app.
  replace (String.length u + String.length suf - String.length suf)
    with (String.length u) by lia.
  apply str_take_app.
Qed.

Lemma page_of_entry_Some e n :
  page_of_entry e = Some n ↔ os.IsDir e = false ∧ os.Name e = n +:+ ".txt".
Proof.
  unfold page_of_entry. destruct (os.IsDir e); simpl.
  { split; [done|by intros [? _]]. }
  destruct (strings.HasSuffix (os.Name e) ".txt") eqn:Hs.
  - apply HasSuffix_iff in Hs as [u Hu]. rewrite Hu, TrimSuffix_app.
    split; [by intros [= ->]|]. by intros [_ ->%str_app_inv_tail].
  - split; [done|]. intros [_ Hn].
    rewrite (proj2 (HasSuffix_iff _ _)) in Hs by eauto. done.
Qed.

Lemma entry_name_data key base :
  os.entry_name "data" key = Some base ↔
  key = "data/" +:+ base ∧ base ≠ "" ∧ no_slash base.
Proof.
  unfold os.entry_name.
  rewrite (decide_False (P := "data" = ".")) by done.
  rewrite (decide_False (P := "data" = "/")) by done.
  change ("data" +:+ "/") with "data/". change (String.length "data/") with 5.
  destruct (String.prefix "data/" key) eqn:Hp.
  - apply str_prefix_inv in Hp. change (String.length "data/") with 5 in Hp.
    destruct (decide _) as [[H0 Hns]|Hno].
    + split.
      * by intros [= <-].
      * by intros (-> & _ & _).
    + split; [done|]. intros (-> & H0 & Hns). by destruct Hno.
  - split; [done|]. intros (-> & _).
    by rewrite str_prefix_app in Hp.
Qed.

Lemma elem_of_entries fs e :
  e ∈ os.entries fs "data" ↔
  ∃ node,
    fs !! ("data/" +:+ os.Name e) = Some node ∧
    os.Name e ≠ "" ∧ no_slash (os.Name e) ∧
    os.IsDir e = bool_decide (node = os.Dir).
Proof.
  unfold os.entries. rewrite list_elem_of_omap. split.
  - intros ([key node] & Hin%elem_of_map_to_list & He).
    destruct (os.entry_name "data" key) as [base|] eqn:Hb; [|done].
    injection He as <-. cbn [os.Name os.IsDir].
    apply entry_name_data in Hb as (-> & ? & ?). eauto.
  - intros (node & Hf & H0 & Hns & Hd).
    exists ("data/" +:+ os.Name e, node). rewrite elem_of_map_to_list.
    split; [done|].
    rewrite (proj2 (entry_name_data _ (os.Name e))) by done.
    cbn. rewrite <-Hd. by destruct e.
Qed.

Lemma NoDup_omap_inj {A B} (f : A → option B) (l : list A) :
  (∀ x y z, x ∈ l → y ∈ l → f x = Some z → f y = Some z → x = y) →
  NoDup l → NoDup (omap f l).
Proof.
  intros Hinj. induction 1 as [|x l Hx Hl IH]; [constructor|].
  cbn. destruct (f x) as [z|] eqn:Hfx.
  - constructor.
    + intros (y & Hy & Hfy)%list_elem_of_omap.
      destruct Hx. rewrite (Hinj x y z); [done|set_solver..|done|done].
    + apply IH. intros ??? ??. apply Hinj; set_solver.
  - apply IH. intros ??? ??. apply Hinj; set_solver.
Qed.

Lemma NoDup_entries fs : NoDup (os.entries fs "data").
Proof.
  unfold os.entries. apply NoDup_omap_inj; [|apply NoDup_map_to_list].
  intros [k1 n1] [k2 n2] e H1%elem_of_map_to_list H2%elem_of_map_to_list He1 He2.
  destruct (os.entry_name "data" k1) as [b1|] eqn:Hb1; [|done].
  destruct (os.entry_name "data" k2) as [b2|] eqn:Hb2; [|done].
  cbn in He1, He2. simplify_eq.
  apply entry_name_data in Hb1 as (-> & _), Hb2 as (-> & _).
  cbn in *. by simplify_eq.
Qed.

Lemma no_slash_txt n : no_slash (n +:+ ".txt") ↔ no_slash n.
Proof.
  unfold no_slash. rewrite str_forall_app, andb_true_iff.
  split; [by intros [? _]|done].
Qed.

(** What getAllPages returns when the data directory can be read. *)
Lemma getAllPages_eq σ :
  getAllPages σ
  = let σ1 := os.log (os.CallReadDir "data") σ in
    match os.files σ !! "data" with
    | Some os.Dir =>
        (inl (omap page_of_entry
                (merge_sort os.by_name (os.entries (os.files σ) "data"))), σ1)
    | Some (os.File _) =>
        (inr (PathErr {| os.Op := "open"; os.Path := "data"; os.Err := os.ENOTDIR |}),
         σ1)
    | None =>
        (inr (PathErr {| os.Op := "open"; os.Path := "data"; os.Err := os.ENOENT |}),
         σ1)
    end.
Proof.
  unfold getAllPages, os.ReadDir, savePath, mbind, IO_bind.
  change (filepath.Clean "data") with "data". cbn [os.files os.log].
  assert (os.resolve (os.files σ) "data"
          = match os.files σ !! "data" with
            | Some nd => os.Found nd
            | None => os.Free
            end) as ->.
  { unfold os.resolve.
    rewrite (decide_False (P := "data" = "")), (decide_True (P := no_nul "data"))
      by done.
    change (filepath.Clean "data") with "data".
    unfold os.stat. rewrite decide_False by (by intros [|]).
    destruct (os.files σ !! "data") as [nd|] eqn:Hdata; [done|].
    rewrite decide_False by (unfold os.PATH_MAX; simpl; lia).
    change (strings.Split "data" "/") with ["data"]. cbn [os.walk].
    rewrite (decide_False (P := "data" = "" ∨ "data" = "..")) by (by intros [|]).
    rewrite decide_False by (unfold os.NAME_MAX; simpl; lia).
    change ("" +:+ "data") with "data". by rewrite Hdata. }
  by destruct (os.files σ !! "data") as [[]|].
Qed.

Lemma elem_of_pages fs n :
  n ∈ omap page_of_entry (merge_sort os.by_name (os.entries fs "data")) ↔
  no_slash n ∧ ∃ c, fs !! page_file n = Some (os.File c).
Proof.
  rewrite list_elem_of_omap. setoid_rewrite merge_sort_Permutation.
  setoid_rewrite elem_of_entries. setoid_rewrite page_of_entry_Some.
  unfold page_file. split.
  - intros (e & (node & Hf & _ & Hns & Hd) & Hfile & Hname).
    rewrite Hname in *. split; [by apply no_slash_txt|].
    rewrite Hfile in Hd. destruct node as [c|]; [eauto|done].
  - intros (Hns & c & Hf).
    exists {| os.Name := n +:+ ".txt"; os.IsDir := false |}. cbn.
    split; [|done]. exists (os.File c). split_and!; try done.
    + by destruct n.
    + by apply no_slash_txt.
Qed.

Lemma NoDup_pages fs :
  NoDup (omap page_of_entry (merge_sort os.by_name (os.entries fs "data"))).
Proof.
  rewrite merge_sort_Permutation. apply NoDup_omap_inj; [|apply NoDup_entries].
  intros [n1 d1] [n2 d2] n _ _ [??]%page_of_entry_Some [??]%page_of_entry_Some.
  cbn in *. by simplify_eq.
Qed.

End listing_facts.

(* ===================================================================== *)
(** * The router                                                          *)
(* ===================================================================== *)

Section router_facts.
Implicit Types (n path url : string) (w : http.ResponseWriter)
  (r : http.Request) (σ : os.World).

Lemma valid_name_Home : valid_name "Home".
Proof. apply (bool_decide_unpack _). by vm_compute. Qed.

Lemma makeHandler_route fn w r op n :
  op ∈ operations → valid_name n →
  http.Path r = "/" +:+ op +:+ "/" +:+ n →
  makeHandler fn w r = fn w r n.
Proof.
  intros Hop Hv Hp. unfold makeHandler.
  by rewrite Hp, FindStringSubmatch_validPath_op, decide_True.
Qed.

Lemma makeHandler_not_found fn w r σ :
  FindStringSubmatch validPath (http.Path r) = None →
  makeHandler fn w r σ = (http.NotFound w r, σ).
Proof. intros Hm. unfold makeHandler. by rewrite Hm. Qed.

Lemma Location_Error w msg code :
  http.Location (http.Error w msg code) = http.Location w.
Proof. by destruct w as [[?|] ??]. Qed.

Lemma Location_Write c w : http.Location (http.Write c w) = http.Location w.
Proof. by destruct w as [[?|] ??]. Qed.

Lemma Location_Redirect w r url code :
  http.Location (http.Redirect w r url code) = Some url.
Proof.
  unfold http.Redirect. destruct w as [[?|] ??]; by destruct (decide _).
Qed.

Lemma Status_Redirect_fresh r url code :
  http.Status (http.Redirect http.NewRecorder r url code) = Some code.
Proof. unfold http.Redirect. cbn. by destruct (decide _). Qed.

Lemma renderTemplate_view w p :
  renderTemplate w "view" p
  = http.Write (http.Rendered (ViewPresentation (Title p) (processLinks (Body p)))) w.
Proof. reflexivity. Qed.

End router_facts.

(* ===================================================================== *)
(** * The claims of the specification                                     *)
(* ===================================================================== *)




(** C2. The link transform: in any content, a marker "[" name "]" with a
    valid name is replaced by the cross-reference to the view operation of
    that page, labelled with the name, and the text before and after it is
    transformed on its own, so every marker is replaced; content that holds
    no marker (empty brackets, characters other than letters and digits
    between the brackets) comes out unchanged. In particular both markers of
    "See [Home] and [Foo2] here" are replaced and the rest is kept, and
    "[not valid]" and "[]" are left as they are. *)
Theorem link_transform_replaces_markers :
  (∀ pre name post, valid_name name →
     processLinks (String.list_byte_of_string (pre +:+ "[" +:+ name +:+ "]" +:+ post))
     = processLinks (String.list_byte_of_string pre)
       +:+ link_to name
       +:+ processLinks (String.list_byte_of_string post)) ∧
  (∀ s, ¬ has_marker s → processLinks (String.list_byte_of_string s) = s) ∧
  (∀ body, ∃ s, body = String.list_byte_of_string s) ∧
  processLinks (String.list_byte_of_string "See [Home] and [Foo2] here")
  = "See " +:+ link_to "Home" +:+ " and " +:+ link_to "Foo2" +:+ " here" ∧
  processLinks (String.list_byte_of_string "[not valid]") = "[not valid]" ∧
  processLinks (String.list_byte_of_string "[]") = "[]" ∧
  ¬ has_marker "[not valid]" ∧ ¬ has_marker "[]".
Proof.
  split_and!.
  - intros pre name post Hv. rewrite !processLinks_scan.
    rewrite <-(link_scan_marker 0 pre name post) by (done || lia).
    unfold marker. by rewrite !str_app_assoc.
  - intros s Hs. rewrite processLinks_scan. by apply link_scan_plain.
  - intros body. exists (String.string_of_list_byte body).
    by rewrite String.list_byte_of_string_of_list_byte.
  - by vm_compute.
  - by vm_compute.
  - by vm_compute.
  - rewrite has_marker_inside. by vm_compute.
  - rewrite has_marker_inside. by vm_compute.
Qed.

Lemma link_transform_replaces_markers_witness :
  processLinks (String.list_byte_of_string ("See " +:+ "[" +:+ "Home" +:+ "]" +:+ " here"))
  = processLinks (String.list_byte_of_string "See ")
    +:+ link_to "Home"
    +:+ processLinks (String.list_byte_of_string " here").
Proof.
  exact (proj1 link_transform_replaces_markers "See " "Home" " here" valid_name_Home).
Defined.

(** C3. A request path that is not an operation keyword (view, edit or save)
    followed by "/" and a valid name is answered by the router with "not
    found" (status 404 on a fresh response), whatever the handler behind it,
    and the world is left as it was: no file is read, written or listed. Such
    paths are "/delete/Home", "/view/../etc", a path without a name and a
    path with a further segment. The handler of the remaining paths,
    rootHandler, answers the same way on every path but "/". *)
Theorem router_rejects_non_routes :
  (∀ (fn : http.ResponseWriter → http.Request → string → IO http.ResponseWriter)
     (w : http.ResponseWriter) (r : http.Request) (σ : os.World),
     ¬ is_route (http.Path r) →
     makeHandler fn w r σ = (http.NotFound w r, σ) ∧
     http.Status (http.NotFound http.NewRecorder r) = Some http.StatusNotFound) ∧
  Forall (λ path, ¬ is_route path)
    ["/delete/Home"; "/view/../etc"; "/view/"; "/view"; "/view/Home/History";
     "/view/Home/"; "/"; "view/Home"; "/view/My Page"] ∧
  (∀ (w : http.ResponseWriter) (r : http.Request) (σ : os.World),
     http.Path r ≠ "/" → rootHandler w r σ = (http.NotFound w r, σ)).
Proof.
  split_and!.
  - intros fn w r σ H. split; [|done]. apply makeHandler_not_found.
    by apply FindStringSubmatch_validPath_None.
  - repeat constructor; apply FindStringSubmatch_validPath_None; by vm_compute.
  - intros w r σ Hp. unfold rootHandler. by rewrite decide_False.
Qed.

Lemma router_rejects_non_routes_witness :
  makeHandler viewHandler http.NewRecorder (get_request "/delete/Home" ∅) fresh_world
  = (http.NotFound http.NewRecorder (get_request "/delete/Home" ∅), fresh_world).
Proof.
  refine (proj1 (proj1 router_rejects_non_routes viewHandler http.NewRecorder
                   (get_request "/delete/Home" ∅) fresh_world _)).
  apply FindStringSubmatch_validPath_None. vm_compute. reflexivity.
Defined.

(** C4. The Name Validator is the name group of the route pattern: for each
    of the three keywords, the pattern accepts the path made of the keyword
    and [s], yielding [s] as the name, if and only if [s] is non-empty and
    every character of [s] is an ASCII letter or digit; otherwise it accepts
    nothing. *)
Theorem name_validator_iff (s op : string) :
  op ∈ operations →
  let path := "/" +:+ op +:+ "/" +:+ s in
  let letters_digits :=
    s ≠ "" ∧ Forall ascii_letter_or_digit (String.list_ascii_of_string s) in
  (FindStringSubmatch validPath path = Some [path; op; s] ↔ letters_digits) ∧
  (FindStringSubmatch validPath path = None ↔ ¬ letters_digits).
Proof.
  intros Hop path letters_digits. subst path.
  rewrite FindStringSubmatch_validPath_op by done.
  fold (valid_name s) in letters_digits. subst letters_digits.
  destruct (decide (valid_name s)); split; split; done.
Qed.

Lemma name_validator_iff_witness :
  FindStringSubmatch validPath "/view/Home" = Some ["/view/Home"; "view"; "Home"].
Proof.
  apply (name_validator_iff "Home" "view").
  - unfold operations. rewrite !elem_of_cons. auto.
  - apply valid_name_Home.
Defined.

(** C5. View before create: for a valid name [n] without a record, the view
    operation answers with a redirect (status 302 on a fresh response) whose
    target is the edit operation for [n], and all it does to the store is one
    read of the record's file: nothing is written. When the record exists
    with content [c], it renders the view presentation with the name [n] and
    the link-transformed [c], again with one read only. *)
Theorem view_redirects_to_edit (n : string) (w : http.ResponseWriter)
    (r : http.Request) (σ : os.World) :
  valid_name n →
  let read := os.log (os.CallReadFile ("data/" +:+ n +:+ ".txt")) σ in
  (os.files σ !! ("data/" +:+ n +:+ ".txt") = None →
     viewHandler w r n σ
     = (http.Redirect w r ("/edit/" +:+ n) http.StatusFound, read) ∧
     http.Location (viewHandler w r n σ).1 = Some ("/edit/" +:+ n) ∧
     http.Status (viewHandler http.NewRecorder r n σ).1 = Some 302) ∧
  (∀ c, os.files σ !! ("data/" +:+ n +:+ ".txt") = Some (os.File c) →
     viewHandler w r n σ
     = (renderTemplate w "view" {| Title := n; Body := c |}, read) ∧
     renderTemplate w "view" {| Title := n; Body := c |}
     = http.Write (http.Rendered (ViewPresentation n (processLinks c))) w) ∧
  os.files read = os.files σ.
Proof.
  intros Hv0 read. fold (page_file n) in *.
  pose proof (valid_name_no_nul n Hv0) as Hnul.
  pose proof (valid_name_no_slash n Hv0) as Hv.
  unfold viewHandler, mbind, IO_bind. split_and!; [| |done].
  - intros Hnone.
    destruct (loadPage_missing n σ Hv) as [err ->]; [by rewrite Hnone|].
    cbn [fst mret IO_ret].
    by rewrite Location_Redirect, Status_Redirect_fresh.
  - intros c Hc. by rewrite (loadPage_found n c σ Hv Hnul Hc).
Qed.

Lemma view_redirects_to_edit_witness :
  http.Location
    (viewHandler http.NewRecorder (get_request "/view/Home" ∅) "Home" fresh_world).1
  = Some "/edit/Home".
Proof.
  refine (proj1 (proj2 (proj1 (view_redirects_to_edit "Home" http.NewRecorder
            (get_request "/view/Home" ∅) fresh_world valid_name_Home) _))).
  vm_compute. reflexivity.
Defined.

(** C6. Edit before create: for a valid name [n] without a record, the edit
    operation renders the edit presentation of the page named [n] with empty
    content, with status 200 on a fresh response and no error; when the
    record exists with content [c], the edit presentation receives [c] as it
    is stored, not link-transformed. *)
Theorem edit_missing_page_is_empty (n : string) (w : http.ResponseWriter)
    (r : http.Request) (σ : os.World) :
  valid_name n →
  let read := os.log (os.CallReadFile ("data/" +:+ n +:+ ".txt")) σ in
  (os.files σ !! ("data/" +:+ n +:+ ".txt") = None →
     editHandler w r n σ
     = (renderTemplate w "edit" {| Title := n; Body := [] |}, read) ∧
     renderTemplate w "edit" {| Title := n; Body := [] |}
     = http.Write (http.Rendered (EditPresentation n [])) w ∧
     http.Status (editHandler http.NewRecorder r n σ).1 = Some http.StatusOK) ∧
  (∀ c, os.files σ !! ("data/" +:+ n +:+ ".txt") = Some (os.File c) →
     editHandler w r n σ
     = (http.Write (http.Rendered (EditPresentation n c)) w, read)).
Proof.
  intros Hv0 read. fold (page_file n) in *.
  pose proof (valid_name_no_nul n Hv0) as Hnul.
  pose proof (valid_name_no_slash n Hv0) as Hv.
  unfold editHandler, mbind, IO_bind. split.
  - intros Hnone.
    destruct (loadPage_missing n σ Hv) as [err ->]; [by rewrite Hnone|].
    done.
  - intros c Hc. by rewrite (loadPage_found n c σ Hv Hnul Hc).
Qed.

Lemma edit_missing_page_is_empty_witness :
  editHandler http.NewRecorder (get_request "/edit/Home" ∅) "Home" fresh_world
  = (renderTemplate http.NewRecorder "edit" {| Title := "Home"; Body := [] |},
     os.log (os.CallReadFile "data/Home.txt") fresh_world).
Proof.
  refine (proj1 (proj1 (edit_missing_page_is_empty "Home" http.NewRecorder
            (get_request "/edit/Home" ∅) fresh_world valid_name_Home) _)).
  vm_compute. reflexivity.
Defined.

(** C7. Save: for a valid name [n], the save operation puts the form field
    "body" under [n]. When the put succeeds it redirects to the view
    operation for [n], and a view of [n] afterwards renders the saved body
    (link-transformed); when the put fails it answers with a server error
    carrying the error's message, sets no redirect and leaves the store as it
    was. The put succeeds exactly when the store can take the record: no
    directory is in the way, and the record is there already or the data
    directory is there and the file name is one the file system takes. In
    particular, after a successful save of "hello" under "Alpha", the view of
    "Alpha" renders "hello". *)
Theorem save_then_view (n : string) (w w' : http.ResponseWriter)
    (r r' : http.Request) (σ : os.World) :
  valid_name n →
  let b := String.list_byte_of_string (http.FormValue r "body") in
  let key := "data/" +:+ n +:+ ".txt" in
  let σ1 := {| os.files := <[key := os.File b]> (os.files σ);
               os.calls := os.calls σ ++ [os.CallWriteFile key] |} in
  ((save {| Title := n; Body := b |} σ).1 = None ↔ storable (os.files σ) n) ∧
  (storable (os.files σ) n ↔
     writable (os.files σ) key ∧
     (os.files σ !! key = None → String.length n + 4 ≤ os.NAME_MAX)) ∧
  ((save {| Title := n; Body := b |} σ).1 = None →
     saveHandler w r n σ
     = (http.Redirect w r ("/view/" +:+ n) http.StatusFound, σ1) ∧
     viewHandler w' r' n σ1
     = (renderTemplate w' "view" {| Title := n; Body := b |},
        os.log (os.CallReadFile key) σ1) ∧
     renderTemplate w' "view" {| Title := n; Body := b |}
     = http.Write (http.Rendered (ViewPresentation n (processLinks b))) w') ∧
  (∀ err, (save {| Title := n; Body := b |} σ).1 = Some err →
       saveHandler w r n σ
       = (http.Error w (error_Error err) http.StatusInternalServerError,
          os.log (os.CallWriteFile key) σ) ∧
       http.Location (saveHandler w r n σ).1 = http.Location w ∧
       http.Status (saveHandler http.NewRecorder r n σ).1 = Some 500) ∧
  (n = "Alpha" → http.FormValue r "body" = "hello" →
   (save {| Title := n; Body := b |} σ).1 = None →
     (viewHandler w' r' "Alpha" (saveHandler w r "Alpha" σ).2).1
     = http.Write (http.Rendered (ViewPresentation "Alpha" "hello")) w').
Proof.
  intros Hv b key σ1. pose proof (valid_name_no_slash n Hv) as Hns.
  pose proof (valid_name_no_nul n Hv) as Hnul.
  assert ((save {| Title := n; Body := b |} σ).1 = None ↔ storable (os.files σ) n)
    as Hput.
  { split.
    - intros Hsave. destruct (save _ σ) as [e σ'] eqn:Hs. cbn in Hsave. subst e.
      by eapply save_inv.
    - intros Hw. by rewrite save_ok. }
  assert (storable (os.files σ) n →
    saveHandler w r n σ
    = (http.Redirect w r ("/view/" +:+ n) http.StatusFound, σ1) ∧
    viewHandler w' r' n σ1
    = (renderTemplate w' "view" {| Title := n; Body := b |},
       os.log (os.CallReadFile key) σ1)) as Hok.
  { intros Hw. split.
    - unfold saveHandler, mbind, IO_bind. fold b. by rewrite save_ok.
    - unfold viewHandler, mbind, IO_bind.
      rewrite (loadPage_found n b σ1 Hns Hnul); [done|].
      apply lookup_insert_eq. }
  split_and!; [done|by apply storable_valid|by intros [??]%Hput%Hok| |].
  - intros err Herr.
    assert (¬ storable (os.files σ) n) as Hw.
    { intros Hw%Hput. congruence. }
    destruct (save_fail n b σ Hns Hw) as [err' Herr'].
    rewrite Herr' in Herr. injection Herr as ->.
    assert (∀ w0, saveHandler w0 r n σ
      = (http.Error w0 (error_Error err) http.StatusInternalServerError,
         os.log (os.CallWriteFile key) σ)) as Hfail.
    { intros w0. unfold saveHandler, mbind, IO_bind. fold b. by rewrite Herr'. }
    rewrite !Hfail. cbn [fst]. by rewrite Location_Error.
  - intros Hn Hbody Hst%Hput. subst n.
    destruct (Hok Hst) as [Hs Hview].
    rewrite Hs. cbn [snd]. rewrite Hview. cbn [fst].
    subst b. rewrite Hbody. by vm_compute.
Qed.

Lemma save_then_view_witness :
  (viewHandler http.NewRecorder (get_request "/view/Alpha" ∅) "Alpha"
     (saveHandler http.NewRecorder
        (get_request "/save/Alpha" {["body" := ["hello"]]}) "Alpha" fresh_world).2).1
  = http.Write (http.Rendered (ViewPresentation "Alpha" "hello")) http.NewRecorder.
Proof.
  refine (proj2 (proj2 (proj2 (proj2 (save_then_view "Alpha" http.NewRecorder
            http.NewRecorder (get_request "/save/Alpha" {["body" := ["hello"]]})
            (get_request "/view/Alpha" ∅) fresh_world _)))) eq_refl _ _).
  - apply (bool_decide_unpack _). by vm_compute.
  - vm_compute. reflexivity.
  - vm_compute. reflexivity.
Defined.

(** C8. The list operation: when the data directory can be read, getAllPages
    returns, without error and without repetition, exactly the names that
    have a record (a regular file named name + ".txt" directly in the data
    directory), so for every valid name [n] it lists [n] if and only if [n]
    has a record, and it returns the empty sequence when there is no record.
    It returns an error if and only if the data directory cannot be read. In
    both cases it changes no file and makes one call, the listing. *)
Theorem list_enumerates_records (σ : os.World) :
  let listed := os.log (os.CallReadDir "data") σ in
  (os.files σ !! "data" = Some os.Dir →
     ∃ pages,
       getAllPages σ = (inl pages, listed) ∧
       NoDup pages ∧
       (∀ n, n ∈ pages ↔
             no_slash n ∧
             ∃ c, os.files σ !! ("data/" +:+ n +:+ ".txt") = Some (os.File c)) ∧
       (∀ n, valid_name n →
             (n ∈ pages ↔
              ∃ c, os.files σ !! ("data/" +:+ n +:+ ".txt") = Some (os.File c))) ∧
       ((∀ n c, os.files σ !! ("data/" +:+ n +:+ ".txt") ≠ Some (os.File c)) →
        pages = [])) ∧
  (os.files σ !! "data" ≠ Some os.Dir ↔ ∃ err, getAllPages σ = (inr err, listed)) ∧
  os.files listed = os.files σ.
Proof.
  intros listed. rewrite getAllPages_eq. fold listed. cbn zeta.
  split_and!; [| |done].
  - intros ->. eexists. split; [done|]. split_and!.
    + apply NoDup_pages.
    + apply elem_of_pages.
    + intros n Hv. rewrite elem_of_pages. fold (page_file n).
      pose proof (valid_name_no_slash n Hv). tauto.
    + intros Hnone.
      destruct (omap _ _) as [|n l] eqn:Hl; [done|].
      assert (n ∈ n :: l) as Hin by set_solver. rewrite <-Hl in Hin.
      apply elem_of_pages in Hin as (_ & c & Hc). by destruct (Hnone n c).
  - destruct (os.files σ !! "data") as [[]|]; split; try done; eauto;
      by intros [? ?].
Qed.

Lemma list_enumerates_records_witness :
  ∃ pages,
    getAllPages fresh_world = (inl pages, os.log (os.CallReadDir "data") fresh_world) ∧
    NoDup pages ∧
    (∀ n, n ∈ pages ↔
          no_slash n ∧
          ∃ c, os.files fresh_world !! ("data/" +:+ n +:+ ".txt") = Some (os.File c)) ∧
    (∀ n, valid_name n →
          (n ∈ pages ↔
           ∃ c, os.files fresh_world !! ("data/" +:+ n +:+ ".txt") = Some (os.File c))) ∧
    ((∀ n c, os.files fresh_world !! ("data/" +:+ n +:+ ".txt") ≠ Some (os.File c)) →
     pages = []).
Proof.
  refine (proj1 (list_enumerates_records fresh_world) _).
  vm_compute. reflexivity.
Defined.

(** C9. The redirects of the handlers stay inside the routes: for a valid
    name, a Location that viewHandler or saveHandler sets on a response that
    had none is "/edit/" name, respectively "/view/" name, which the route
    pattern accepts with that keyword and that name, so makeHandler passes
    the redirected request on to its handler. *)
Theorem redirect_targets_are_routes (n : string) (w : http.ResponseWriter)
    (r : http.Request) (σ : os.World) (url : string) :
  valid_name n →
  http.Location w = None →
  (http.Location (viewHandler w r n σ).1 = Some url →
     url = "/edit/" +:+ n ∧
     FindStringSubmatch validPath url = Some [url; "edit"; n]) ∧
  (http.Location (saveHandler w r n σ).1 = Some url →
     url = "/view/" +:+ n ∧
     FindStringSubmatch validPath url = Some [url; "view"; n]) ∧
  (∀ fn w' r', http.Path r' = "/edit/" +:+ n ∨ http.Path r' = "/view/" +:+ n →
     makeHandler fn w' r' = fn w' r' n).
Proof.
  intros Hv Hw. pose proof (valid_name_no_slash n Hv) as Hns.
  assert (∀ op, op ∈ operations →
    FindStringSubmatch validPath ("/" +:+ op +:+ "/" +:+ n)
    = Some ["/" +:+ op +:+ "/" +:+ n; op; n]) as Hroute.
  { intros op Hop. by rewrite FindStringSubmatch_validPath_op, decide_True. }
  assert ("edit" ∈ operations ∧ "view" ∈ operations) as [Hedit Hview]
    by (unfold operations; rewrite !elem_of_cons; auto).
  split_and!.
  - unfold viewHandler, mbind, IO_bind.
    destruct (loadPage n σ) as [[p|err] σ']; cbn [fst mret IO_ret].
    + rewrite renderTemplate_view, Location_Write. congruence.
    + rewrite Location_Redirect. intros [= <-]. split; [done|].
      by apply (Hroute "edit").
  - unfold saveHandler, mbind, IO_bind.
    destruct (save _ σ) as [[err|] σ']; cbn [fst mret IO_ret].
    + rewrite Location_Error. congruence.
    + rewrite Location_Redirect. intros [= <-]. split; [done|].
      by apply (Hroute "view").
  - intros fn w' r' [Hp|Hp].
    + by apply (makeHandler_route fn w' r' "edit" n).
    + by apply (makeHandler_route fn w' r' "view" n).
Qed.

Lemma redirect_targets_are_routes_witness :
  FindStringSubmatch validPath "/edit/Home" = Some ["/edit/Home"; "edit"; "Home"].
Proof.
  refine (proj2 (proj1 (redirect_targets_are_routes "Home" http.NewRecorder
            (get_request "/view/Home" ∅) fresh_world "/edit/Home"
            valid_name_Home eq_refl) _)).
  vm_compute. reflexivity.
Defined.

(** C10, amended. A save request without a "body" field is not an error of
    its own: for a valid name [n] the handler behaves as with an empty body.
    When the store can take the record, which it can for every name of at
    most 251 letters and digits when no directory is in the way and the data
    directory is there, it holds the empty byte sequence under [n]
    afterwards, created or overwritten, and the answer is the redirect to the
    view operation for [n] (status 302 on a fresh response). *)
Theorem save_without_body_field (n : string) (w : http.ResponseWriter)
    (r : http.Request) (σ : os.World) :
  valid_name n →
  http.Form r !! "body" = None →
  let key := "data/" +:+ n +:+ ".txt" in
  (storable (os.files σ) n →
     saveHandler w r n σ
     = (http.Redirect w r ("/view/" +:+ n) http.StatusFound,
        {| os.files := <[key := os.File []]> (os.files σ);
           os.calls := os.calls σ ++ [os.CallWriteFile key] |}) ∧
     http.Status (saveHandler http.NewRecorder r n σ).1 = Some 302) ∧
  (storable (os.files σ) n ↔
     writable (os.files σ) key ∧
     (os.files σ !! key = None → String.length n + 4 ≤ os.NAME_MAX)) ∧
  (String.length n ≤ 251 → writable (os.files σ) key → storable (os.files σ) n) ∧
  saveHandler w r n σ
  = saveHandler w {| http.Method := http.Method r; http.Path := http.Path r;
                     http.Form := <["body" := [""]]> (http.Form r) |} n σ.
Proof.
  intros Hv Hnone key. pose proof (valid_name_no_slash n Hv) as Hns.
  assert (http.FormValue r "body" = "") as Hbody
    by (unfold http.FormValue; by rewrite Hnone).
  split_and!.
  - intros Hw.
    assert (∀ w0, saveHandler w0 r n σ
      = (http.Redirect w0 r ("/view/" +:+ n) http.StatusFound,
         {| os.files := <[key := os.File []]> (os.files σ);
            os.calls := os.calls σ ++ [os.CallWriteFile key] |})) as Hok.
    { intros w0. unfold saveHandler, mbind, IO_bind. rewrite Hbody.
      change (String.list_byte_of_string "") with (@nil Byte.byte).
      by rewrite save_ok. }
    rewrite !Hok. cbn [fst]. by rewrite Status_Redirect_fresh.
  - by apply storable_valid.
  - intros Hlen Hw. apply storable_valid; [done|]. split; [done|].
    unfold os.NAME_MAX. lia.
  - unfold saveHandler, http.FormValue. cbn [http.Form].
    rewrite Hnone, lookup_insert_eq.
    unfold mbind, IO_bind. by destruct (save _ σ) as [[?|] ?].
Qed.

Lemma save_without_body_field_witness :
  http.Status
    (saveHandler http.NewRecorder (get_request "/save/Home" ∅) "Home" fresh_world).1
  = Some 302.
Proof.
  refine (proj2 (proj1 (save_without_body_field "Home" http.NewRecorder
            (get_request "/save/Home" ∅) fresh_world valid_name_Home _) _)).
  - vm_compute. reflexivity.
  - apply (bool_decide_unpack _). by vm_compute.
Defined.

(** C10 as it is stated fails: for the valid name of 252 letters "a", in the
    store with an empty data directory, the save request without a "body"
    field is answered with the server error "file name too long", without a
    redirect, and nothing is stored. *)
Lemma save_without_body_field_counterexample :
  valid_name (letters 252) ∧
  http.Form (get_request ("/save/" +:+ letters 252) ∅) !! "body" = None ∧
  saveHandler http.NewRecorder (get_request ("/save/" +:+ letters 252) ∅)
    (letters 252) fresh_world
  = (http.Error http.NewRecorder
       ("open data/" +:+ letters 252 +:+ ".txt: file name too long")
       http.StatusInternalServerError,
     os.log (os.CallWriteFile ("data/" +:+ letters 252 +:+ ".txt")) fresh_world) ∧
  http.Status
    (saveHandler http.NewRecorder (get_request ("/save/" +:+ letters 252) ∅)
       (letters 252) fresh_world).1 = Some 500 ∧
  http.Location
    (saveHandler http.NewRecorder (get_request ("/save/" +:+ letters 252) ∅)
       (letters 252) fresh_world).1 = None.
Proof.
  split_and!.
  - apply (bool_decide_unpack _). by vm_compute.
  - done.
  - vm_compute. reflexivity.
  - vm_compute. reflexivity.
  - vm_compute. reflexivity.
Qed.

(* ===================================================================== *)
(** * Further properties of the store                                     *)
(* ===================================================================== *)

Section store_effects.
Implicit Types (n m title : string) (c : list Byte.byte) (σ : os.World)
  (w : http.ResponseWriter) (r : http.Request).

Lemma ReadFile_world name σ :
  (os.ReadFile name σ).2 = os.log (os.CallReadFile name) σ.
Proof.
  unfold os.ReadFile. cbn zeta. by destruct (os.resolve _ _) as [[]| |].
Qed.

Lemma ReadDir_world name σ :
  (os.ReadDir name σ).2 = os.log (os.CallReadDir name) σ.
Proof. unfold os.ReadDir. cbn zeta. by destruct (os.resolve _ _) as [[]| |]. Qed.


Lemma loadPage_world title σ :
  (loadPage title σ).2
  = os.log (os.CallReadFile (filepath.Join [savePath; title +:+ ".txt"])) σ.
Proof.
  unfold loadPage, mbind, IO_bind. rewrite <-ReadFile_world.
  by destruct (os.ReadFile _ σ) as [[?|?] ?].
Qed.

Lemma getAllPages_world σ :
  (getAllPages σ).2 = os.log (os.CallReadDir savePath) σ.
Proof.
  unfold getAllPages, mbind, IO_bind. rewrite <-ReadDir_world.
  by destruct (os.ReadDir _ σ) as [[?|?] ?].
Qed.

Lemma page_file_inj n m : page_file n = page_file m → n = m.
Proof.
  unfold page_file. intros H%(inj (String.app "data/")).
  by apply str_app_inv_tail in H.
Qed.

Lemma page_file_not_data n : page_file n ≠ "data".
Proof.
  unfold page_file. intros H. apply (f_equal String.length) in H.
  rewrite !str_length_app in H. simpl in H. lia.
Qed.

(** What [put] leaves behind, whether it succeeds or not. *)
Lemma save_files n c σ :
  no_slash n →
  os.files (save {| Title := n; Body := c |} σ).2
  = if decide (storable (os.files σ) n)
    then <[page_file n := os.File c]> (os.files σ)
    else os.files σ.
Proof.
  intros Hn. destruct (decide _) as [Hw|Hw].
  - by rewrite save_ok.
  - by destruct (save_fail n c σ Hn Hw) as [err ->].
Qed.

Lemma writable_insert fs n c :
  writable (<[page_file n := os.File c]> fs) (page_file n).
Proof. unfold writable. by rewrite lookup_insert_eq. Qed.

Lemma storable_insert fs n c :
  no_nul n → storable (<[page_file n := os.File c]> fs) n.
Proof. intros Hn. unfold storable. by rewrite lookup_insert_eq. Qed.

End store_effects.


(** X2. A put touches one record only: for slash-free names [n] and [m]
    that differ, putting content under [n], whether it succeeds or fails,
    leaves the record of [m] as it was, so [get(m)] returns the same page or
    the same error before and after. *)
Theorem save_keeps_other_pages (n m : string) (c : list Byte.byte) (σ : os.World) :
  no_slash n → no_slash m → n ≠ m →
  let σ' := (save {| Title := n; Body := c |} σ).2 in
  os.files σ' !! ("data/" +:+ m +:+ ".txt") = os.files σ !! ("data/" +:+ m +:+ ".txt") ∧
  (loadPage m σ').1 = (loadPage m σ).1.
Proof.
  intros Hn Hm Hne σ'. fold (page_file m).
  assert (os.files σ' !! page_file m = os.files σ !! page_file m ∧
          os.files σ' !! "data" = os.files σ !! "data") as [Hkey Hdata].
  { unfold σ'. rewrite save_files by done. destruct (decide _); [|done].
    rewrite !lookup_insert_ne; [done| |].
    - apply page_file_not_data.
    - by intros ?%page_file_inj. }
  split; [done|].
  rewrite !loadPage_eq, !ReadFile_page, !resolve_page by done. cbn zeta.
  rewrite Hkey, Hdata. by destruct (if decide (no_nul m) then _ else _) as [[]| |].
Qed.

Lemma save_keeps_other_pages_witness :
  (loadPage "Home" (save {| Title := "Other"; Body := [Byte.x68] |} fresh_world).2).1
  = (loadPage "Home" fresh_world).1.
Proof.
  refine (proj2 (save_keeps_other_pages "Other" "Home" [Byte.x68] fresh_world _ _ _)).
  - by vm_compute.
  - by vm_compute.
  - done.
Defined.

(** X3. The last write wins: when the store can take the record of a
    slash-free name [n], two puts under [n] in a row both succeed, leave the
    files exactly as the second put alone would, and [get(n)] then returns
    the content of the second. *)
Theorem last_write_wins (n : string) (c1 c2 : list Byte.byte) (σ : os.World) :
  no_slash n →
  storable (os.files σ) n →
  let σ1 := (save {| Title := n; Body := c1 |} σ).2 in
  let σ2 := (save {| Title := n; Body := c2 |} σ1).2 in
  (save {| Title := n; Body := c1 |} σ).1 = None ∧
  (save {| Title := n; Body := c2 |} σ1).1 = None ∧
  os.files σ2 = os.files (save {| Title := n; Body := c2 |} σ).2 ∧
  (loadPage n σ2).1 = inl {| Title := n; Body := c2 |}.
Proof.
  intros Hn Hw σ1 σ2. pose proof (proj1 Hw) as Hnul.
  assert (σ1 = {| os.files := <[page_file n := os.File c1]> (os.files σ);
                  os.calls := os.calls σ ++ [os.CallWriteFile (page_file n)] |})
    as Hσ1 by (unfold σ1; by rewrite save_ok).
  assert (storable (os.files σ1) n) as Hw1
    by (rewrite Hσ1; by apply storable_insert).
  unfold σ2. rewrite (save_ok n c1 σ), (save_ok n c2 σ1), (save_ok n c2 σ) by done.
  cbn [fst snd os.files]. split_and!; [done..| |].
  - rewrite Hσ1. cbn [os.files]. by rewrite insert_insert_eq.
  - rewrite (loadPage_found n c2); [done..|]. cbn [os.files].
    apply lookup_insert_eq.
Qed.

Lemma last_write_wins_witness :
  (loadPage "Home"
     (save {| Title := "Home"; Body := [Byte.x62] |}
        (save {| Title := "Home"; Body := [Byte.x61] |} fresh_world).2).2).1
  = inl {| Title := "Home"; Body := [Byte.x62] |}.
Proof.
  refine (proj2 (proj2 (proj2 (last_write_wins "Home" [Byte.x61] [Byte.x62]
                                 fresh_world _ _)))).
  - by vm_compute.
  - apply (bool_decide_unpack _). by vm_compute.
Defined.

(** X4. A saved page is listed: when the listing works and the store can
    take the record of a slash-free name [n], the listing after a put under
    [n] holds, without repetition, [n] and exactly the names listed before. *)
Theorem saved_page_is_listed (n : string) (c : list Byte.byte) (σ : os.World)
    (pages : list string) :
  no_slash n →
  storable (os.files σ) n →
  (getAllPages σ).1 = inl pages →
  ∃ pages',
    (getAllPages (save {| Title := n; Body := c |} σ).2).1 = inl pages' ∧
    NoDup pages' ∧
    ∀ m, m ∈ pages' ↔ m = n ∨ m ∈ pages.
Proof.
  intros Hn Hw Hlist.
  rewrite getAllPages_eq in Hlist. cbn zeta in Hlist.
  destruct (os.files σ !! "data") as [[]|] eqn:Hdata; [done| |done].
  cbn in Hlist. injection Hlist as <-.
  rewrite save_ok, getAllPages_eq by done. cbn [snd os.files]. cbn zeta.
  rewrite lookup_insert_ne by apply page_file_not_data. rewrite Hdata.
  eexists. split; [done|]. split; [apply NoDup_pages|].
  intros m. rewrite !elem_of_pages. split.
  - intros (Hm & c' & Hc'). destruct (decide (m = n)) as [->|Hne]; [by left|].
    right. rewrite lookup_insert_ne in Hc' by (by intros ?%page_file_inj). eauto.
  - intros [->|(Hm & c' & Hc')].
    + split; [done|]. exists c. apply lookup_insert_eq.
    + split; [done|]. destruct (decide (m = n)) as [->|Hne].
      * exists c. apply lookup_insert_eq.
      * exists c'. by rewrite lookup_insert_ne by (by intros ?%page_file_inj).
Qed.

Lemma saved_page_is_listed_witness :
  ∃ pages',
    (getAllPages (save {| Title := "Home"; Body := [Byte.x68] |} fresh_world).2).1
    = inl pages' ∧
    NoDup pages' ∧
    ∀ m, m ∈ pages' ↔ m = "Home" ∨ m ∈ @nil string.
Proof.
  refine (saved_page_is_listed "Home" [Byte.x68] fresh_world [] _ _ _).
  - by vm_compute.
  - apply (bool_decide_unpack _). by vm_compute.
  - by vm_compute.
Defined.

(* ===================================================================== *)
(** * Further properties of the handlers                                  *)
(* ===================================================================== *)

Section handler_effects.
Implicit Types (n : string) (w : http.ResponseWriter) (r : http.Request)
  (σ : os.World).

Lemma viewHandler_world w r n σ : (viewHandler w r n σ).2 = (loadPage n σ).2.
Proof.
  unfold viewHandler, mbind, IO_bind. by destruct (loadPage n σ) as [[?|?] ?].
Qed.

Lemma editHandler_world w r n σ : (editHandler w r n σ).2 = (loadPage n σ).2.
Proof.
  unfold editHandler, mbind, IO_bind. by destruct (loadPage n σ) as [[?|?] ?].
Qed.

Lemma saveHandler_world w r n σ :
  (saveHandler w r n σ).2
  = (save {| Title := n;
             Body := String.list_byte_of_string (http.FormValue r "body") |} σ).2.
Proof.
  unfold saveHandler, mbind, IO_bind. by destruct (save _ σ) as [[?|] ?].
Qed.

Lemma save_calls n c σ :
  no_slash n →
  os.calls (save {| Title := n; Body := c |} σ).2
  = os.calls σ ++ [os.CallWriteFile (page_file n)].
Proof.
  intros Hn. destruct (decide (storable (os.files σ) n)) as [Hw|Hw].
  - by rewrite save_ok.
  - by destruct (save_fail n c σ Hn Hw) as [err ->].
Qed.

(** What makeHandler does, by cases on the path. *)
Lemma makeHandler_cases fn w r σ :
  (¬ is_route (http.Path r) ∧ makeHandler fn w r σ = (http.NotFound w r, σ)) ∨
  (∃ op n, op ∈ operations ∧ valid_name n ∧
           http.Path r = "/" +:+ op +:+ "/" +:+ n ∧
           makeHandler fn w r σ = fn w r n σ).
Proof.
  destruct (FindStringSubmatch validPath (http.Path r)) as [m|] eqn:Hm.
  - right. apply FindStringSubmatch_validPath in Hm as (op & n & Hop & Hv & Hp & ->).
    exists op, n. split_and!; [done..|].
    by rewrite (makeHandler_route fn w r op n).
  - left. split; [by apply FindStringSubmatch_validPath_None|].
    by apply makeHandler_not_found.
Qed.

End handler_effects.

(** X5. The router is the gate of the handlers: makeHandler calls the
    function it wraps only with a name that satisfies the name grammar, taken
    from a path made of an operation keyword and that name; on every other
    path the function is not called. So two functions that agree on valid
    names give the same wrapped handler. *)
Theorem handlers_get_valid_names_only
    (fn fn' : http.ResponseWriter → http.Request → string → IO http.ResponseWriter)
    (w : http.ResponseWriter) (r : http.Request) (σ : os.World) :
  ((makeHandler fn w r σ = (http.NotFound w r, σ) ∧ ¬ is_route (http.Path r)) ∨
   (∃ op n, op ∈ operations ∧ valid_name n ∧
            http.Path r = "/" +:+ op +:+ "/" +:+ n ∧
            makeHandler fn w r σ = fn w r n σ)) ∧
  ((∀ w r n σ, valid_name n → fn w r n σ = fn' w r n σ) →
   makeHandler fn w r σ = makeHandler fn' w r σ).
Proof.
  split.
  - destruct (makeHandler_cases fn w r σ) as [[??]|?]; [by left|by right].
  - intros Hagree.
    destruct (makeHandler_cases fn w r σ) as [[Hno ->]|(op & n & Hop & Hv & Hp & ->)].
    + destruct (makeHandler_cases fn' w r σ) as [[_ ->]|(op & n & ? & ? & Hp & _)];
        [done|]. destruct Hno. by exists op, n.
    + rewrite (makeHandler_route fn' w r op n) by done. by apply Hagree.
Qed.

(** X6. No request leaves the data directory: behind the router, the view,
    edit and save handlers make at most one call on the file system, a read
    or a write of the file of a valid name, "data/" name ".txt", and no other
    file changes. *)
Theorem routed_handlers_stay_in_store
    (h : http.ResponseWriter → http.Request → string → IO http.ResponseWriter)
    (w : http.ResponseWriter) (r : http.Request) (σ : os.World) :
  h ∈ [viewHandler; editHandler; saveHandler] →
  let σ' := (makeHandler h w r σ).2 in
  σ' = σ ∨
  ∃ n call,
    valid_name n ∧
    (call = os.CallReadFile ("data/" +:+ n +:+ ".txt") ∨
     call = os.CallWriteFile ("data/" +:+ n +:+ ".txt")) ∧
    os.calls σ' = os.calls σ ++ [call] ∧
    ∀ key, key ≠ "data/" +:+ n +:+ ".txt" → os.files σ' !! key = os.files σ !! key.
Proof.
  intros Hh σ'. unfold σ'.
  destruct (makeHandler_cases h w r σ) as [[_ ->]|(op & n & _ & Hv & _ & ->)];
    [by left|].
  right. pose proof (valid_name_no_slash n Hv) as Hn. fold (page_file n).
  assert (∀ σ0, σ0 = (loadPage n σ).2 →
    ∃ call, (call = os.CallReadFile (page_file n) ∨
             call = os.CallWriteFile (page_file n)) ∧
            os.calls σ0 = os.calls σ ++ [call] ∧
            ∀ key, key ≠ page_file n → os.files σ0 !! key = os.files σ !! key)
    as Hread.
  { intros σ0 ->. rewrite loadPage_world, page_path by done. eauto. }
  apply elem_of_cons in Hh as [->|Hh]; [|apply elem_of_cons in Hh as [->|Hh];
    [|apply list_elem_of_singleton in Hh as ->]].
  - exists n. destruct (Hread _ (viewHandler_world w r n σ)) as (call & ?).
    by exists call.
  - exists n. destruct (Hread _ (editHandler_world w r n σ)) as (call & ?).
    by exists call.
  - exists n, (os.CallWriteFile (page_file n)).
    rewrite saveHandler_world, save_calls, save_files by done.
    split_and!; [done|by right|done|].
    intros key Hkey. destruct (decide _); [|done].
    by rewrite lookup_insert_ne.
Qed.

Lemma routed_handlers_stay_in_store_witness :
  ∃ n call,
    valid_name n ∧
    (call = os.CallReadFile ("data/" +:+ n +:+ ".txt") ∨
     call = os.CallWriteFile ("data/" +:+ n +:+ ".txt")) ∧
    os.calls (makeHandler saveHandler http.NewRecorder
                (get_request "/save/Home" {["body" := ["hello"]]}) fresh_world).2
    = os.calls fresh_world ++ [call] ∧
    ∀ key, key ≠ "data/" +:+ n +:+ ".txt" →
      os.files (makeHandler saveHandler http.NewRecorder
                  (get_request "/save/Home" {["body" := ["hello"]]})
                  fresh_world).2 !! key
      = os.files fresh_world !! key.
Proof.
  destruct (routed_handlers_stay_in_store saveHandler http.NewRecorder
              (get_request "/save/Home" {["body" := ["hello"]]}) fresh_world)
    as [Hsame|Hcall].
  - rewrite !elem_of_cons. auto.
  - apply (f_equal os.calls) in Hsame. vm_compute in Hsame. discriminate Hsame.
  - exact Hcall.
Defined.

Lemma handlers_get_valid_names_only_witness :
  makeHandler viewHandler http.NewRecorder (get_request "/view/Home" ∅) fresh_world
  = makeHandler
      (λ w r n, if decide (valid_name n) then viewHandler w r n
                else mret (http.NotFound w r))
      http.NewRecorder (get_request "/view/Home" ∅) fresh_world.
Proof.
  refine (proj2 (handlers_get_valid_names_only viewHandler
            (λ w r n, if decide (valid_name n) then viewHandler w r n
                      else mret (http.NotFound w r))
            http.NewRecorder (get_request "/view/Home" ∅) fresh_world) _).
  intros w r n σ Hv. by rewrite decide_True.
Defined.

(** X7. Every read error counts as a missing page: when a directory sits
    where the record of a valid name [n] would be, the view operation still
    redirects to the edit operation, the edit operation still shows an empty
    page, and the save operation answers with a server error whose message
    names the file ("open data/n.txt: is a directory") and changes no file.
    When there is no record and the data directory itself is missing, save
    answers with the server error "open data/n.txt: no such file or
    directory" if the path is short enough to be looked up, and with "open
    data/n.txt: file name too long" if it has [PATH_MAX] bytes or more; with
    the data directory there and a name of more than 251 letters and digits
    it answers "file name too long" as well. *)
Theorem record_path_taken_by_directory (n : string) (w : http.ResponseWriter)
    (r : http.Request) (σ : os.World) :
  valid_name n →
  let key := "data/" +:+ n +:+ ".txt" in
  let answer (msg : string) :=
    (saveHandler w r n σ).1
    = http.Error w ("open " +:+ key +:+ ": " +:+ msg)
        http.StatusInternalServerError ∧
    os.files (saveHandler w r n σ).2 = os.files σ in
  (os.files σ !! key = Some os.Dir →
     (viewHandler w r n σ).1 = http.Redirect w r ("/edit/" +:+ n) http.StatusFound ∧
     (editHandler w r n σ).1 = renderTemplate w "edit" {| Title := n; Body := [] |} ∧
     answer "is a directory") ∧
  (os.files σ !! key = None → os.files σ !! "data" = None →
   String.length key < os.PATH_MAX →
     answer "no such file or directory") ∧
  (os.files σ !! key = None → os.PATH_MAX ≤ String.length key →
     answer "file name too long") ∧
  (os.files σ !! key = None → os.files σ !! "data" = Some os.Dir →
   251 < String.length n →
     answer "file name too long").
Proof.
  intros Hv0 key answer. pose proof (valid_name_no_slash n Hv0) as Hv.
  pose proof (valid_name_no_nul n Hv0) as Hnul.
  fold (page_file n) in key. subst answer key. cbn beta.
  assert (∀ e, error_Error (PathErr {| os.Op := "open"; os.Path := page_file n;
                                       os.Err := e |})
               = "open " +:+ page_file n +:+ ": " +:+ os.Errno_Error e) as Hmsg.
  { intros e. reflexivity. }
  assert (∀ e, os.resolve (os.files σ) (page_file n) = os.Refused e →
    (saveHandler w r n σ).1
    = http.Error w ("open " +:+ page_file n +:+ ": " +:+ os.Errno_Error e)
        http.StatusInternalServerError ∧
    os.files (saveHandler w r n σ).2 = os.files σ) as Hrefused.
  { intros e He. split.
    - unfold saveHandler, mbind, IO_bind.
      rewrite save_eq, WriteFile_page by done. cbn zeta. rewrite He.
      cbn [fmap option_fmap option_map fst]. by rewrite Hmsg.
    - rewrite saveHandler_world, save_files by done.
      rewrite decide_False; [done|].
      pose proof (resolve_storable (os.files σ) n Hv) as Hr. by rewrite He in Hr. }
  assert (String.length (page_file n) = 5 + String.length (n +:+ ".txt")) as Hlen
    by (unfold page_file; by rewrite str_length_app).
  split_and!.
  - intros Hdir. split_and!.
    + unfold viewHandler, mbind, IO_bind.
      destruct (loadPage_missing n σ Hv) as [err ->]; [by rewrite Hdir|done].
    + unfold editHandler, mbind, IO_bind.
      destruct (loadPage_missing n σ Hv) as [err ->]; [by rewrite Hdir|done].
    + unfold saveHandler, mbind, IO_bind.
      rewrite save_eq, WriteFile_page, resolve_page by done. cbn zeta.
      rewrite decide_True, Hdir by done.
      cbn [fmap option_fmap option_map fst]. by rewrite Hmsg.
    + rewrite saveHandler_world, save_files by done.
      rewrite decide_False; [done|]. unfold storable. rewrite Hdir. tauto.
  - intros Hkey Hdata Hshort. apply (Hrefused os.ENOENT).
    rewrite resolve_page, decide_True, Hkey, Hdata by done.
    by rewrite decide_False by lia.
  - intros Hkey Hlong. apply (Hrefused os.ENAMETOOLONG).
    rewrite resolve_page, decide_True, Hkey by done.
    by rewrite decide_True.
  - intros Hkey Hdata Hlong. apply (Hrefused os.ENAMETOOLONG).
    rewrite resolve_page, decide_True, Hkey, Hdata by done.
    destruct (decide _); [done|]. rewrite decide_True; [done|].
    rewrite str_length_app. unfold os.NAME_MAX. simpl. lia.
Qed.

Lemma record_path_taken_by_directory_witness :
  (saveHandler http.NewRecorder (get_request "/save/Home" ∅) "Home"
     {| os.files := ∅; os.calls := [] |}).1
  = http.Error http.NewRecorder
      ("open " +:+ ("data/" +:+ "Home" +:+ ".txt") +:+ ": "
         +:+ "no such file or directory")
      http.StatusInternalServerError.
Proof.
  refine (proj1 (proj1 (proj2 (record_path_taken_by_directory "Home"
            http.NewRecorder (get_request "/save/Home" ∅)
            {| os.files := ∅; os.calls := [] |} valid_name_Home)) _ _ _)).
  - by vm_compute.
  - by vm_compute.
  - unfold os.PATH_MAX. simpl. lia.
Defined.

(** X8. Saving then editing shows what was typed: for a valid name [n]
    whose record the store can take, after the save the edit operation is
    given the page whose body is the bytes of the submitted form field, not
    link-transformed, and those bytes read back as the submitted text. *)
Theorem save_then_edit_shows_raw_body (n : string) (w w' : http.ResponseWriter)
    (r r' : http.Request) (σ : os.World) :
  valid_name n →
  storable (os.files σ) n →
  let body := http.FormValue r "body" in
  (editHandler w' r' n (saveHandler w r n σ).2).1
  = renderTemplate w' "edit"
      {| Title := n; Body := String.list_byte_of_string body |} ∧
  String.string_of_list_byte (String.list_byte_of_string body) = body.
Proof.
  intros Hv0 Hw body. pose proof (valid_name_no_slash n Hv0) as Hv.
  pose proof (valid_name_no_nul n Hv0) as Hnul.
  split; [|apply String.string_of_list_byte_of_string].
  rewrite saveHandler_world, save_ok by done. cbn [snd].
  unfold editHandler, mbind, IO_bind.
  rewrite (loadPage_found n (String.list_byte_of_string body)); [done..|].
  cbn [os.files]. apply lookup_insert_eq.
Qed.

Lemma save_then_edit_shows_raw_body_witness :
  (editHandler http.NewRecorder (get_request "/edit/Home" ∅) "Home"
     (saveHandler http.NewRecorder
        (get_request "/save/Home" {["body" := ["see [Other]"]]}) "Home"
        fresh_world).2).1
  = renderTemplate http.NewRecorder "edit"
      {| Title := "Home"; Body := String.list_byte_of_string "see [Other]" |}.
Proof.
  refine (proj1 (save_then_edit_shows_raw_body "Home" http.NewRecorder
            http.NewRecorder (get_request "/save/Home" {["body" := ["see [Other]"]]})
            (get_request "/edit/Home" ∅) fresh_world valid_name_Home _)).
  apply (bool_decide_unpack _). by vm_compute.
Defined.

Section unvalidated_titles.
Implicit Types (t base : string) (c : list Byte.byte) (σ : os.World).

Lemma Clean_data_up base :
  entry_like base → filepath.Clean ("data/../" +:+ base) = base.
Proof.
  intros (Hns & H0 & H1 & H2). unfold filepath.Clean.
  change (String.prefix "/" ("data/../" +:+ base)) with false. cbv iota.
  change (strings.Split ("data/../" +:+ base) "/")
    with ("data" :: ".." :: strings.Split base "/").
  rewrite Split_no_slash by done. cbn [filepath.clean_elems].
  rewrite (decide_False (P := "data" = "" ∨ "data" = ".")) by (by intros [|]).
  rewrite (decide_False (P := "data" = "..")) by done.
  cbn [filepath.clean_elems].
  rewrite (decide_False (P := ".." = "" ∨ ".." = ".")) by (by intros [|]).
  rewrite (decide_True (P := ".." = "..")) by done.
  rewrite (decide_False (P := "data" = "..")) by done.
  cbn [filepath.clean_elems].
  rewrite (decide_False (P := base = "" ∨ base = ".")) by tauto.
  rewrite (decide_False (P := base = "..")) by done.
  reflexivity.
Qed.

Lemma Clean_entry base : entry_like base → filepath.Clean base = base.
Proof.
  intros (Hns & H0 & H1 & H2). unfold filepath.Clean.
  assert (String.prefix "/" base = false) as ->.
  { destruct base as [|a b]; [done|]. unfold no_slash in Hns.
    cbn [str_forall] in Hns.
    apply andb_prop in Hns as [Ha _]. apply bool_decide_eq_true in Ha.
    cbn [String.prefix]. by destruct (ascii_dec "/" a) as [<-|]. }
  rewrite Split_no_slash by done. cbn [filepath.clean_elems].
  rewrite (decide_False (P := base = "" ∨ base = ".")) by tauto.
  rewrite (decide_False (P := base = "..")) by done.
  reflexivity.
Qed.

Lemma stat_entry (fs : gmap string os.node) base :
  entry_like base → os.stat fs base = fs !! base.
Proof.
  intros (Hns & H0 & H1 & H2). unfold os.stat.
  rewrite decide_False; [done|]. intros [->| ->]; [done|].
  by vm_compute in Hns.
Qed.

Lemma parent_entry base : entry_like base → os.parent base = ".".
Proof.
  intros (Hns & _). unfold os.parent. by rewrite through_last_sep_no_slash.
Qed.

Lemma Join_up t :
  no_slash t →
  filepath.Join [savePath; ("../" +:+ t) +:+ ".txt"] = t +:+ ".txt".
Proof.
  intros Ht. unfold filepath.Join, savePath. rewrite decide_False by done.
  change (strings.Join ["data"; ("../" +:+ t) +:+ ".txt"] "/")
    with ("data/../" +:+ t +:+ ".txt").
  by apply Clean_data_up, txt_entry_like.
Qed.

(** What the system finds at an entry of the working directory. *)
Lemma resolve_entry (fs : gmap string os.node) base :
  entry_like base → no_nul base →
  os.resolve fs base
  = match fs !! base with
    | Some nd => os.Found nd
    | None =>
        if decide (os.NAME_MAX < String.length base)
        then os.Refused os.ENAMETOOLONG else os.Free
    end.
Proof.
  intros Hentry Hnul. pose proof Hentry as (Hns & H0 & H1 & H2).
  unfold os.resolve. rewrite (decide_False (P := base = "")) by done.
  rewrite decide_True by done. rewrite Clean_entry, stat_entry by done.
  destruct (fs !! base) as [nd|] eqn:Hbase; [done|].
  rewrite Split_no_slash by done. cbn [os.walk].
  rewrite (decide_False (P := base = "" ∨ base = "..")) by tauto.
  change ("" +:+ base) with base. rewrite Hbase.
  unfold os.PATH_MAX, os.NAME_MAX.
  destruct (decide (4096 ≤ _)); destruct (decide (255 < _)); done || lia.
Qed.

End unvalidated_titles.

(** X9. The store functions do not validate the title: for a slash-free
    [t] without a NUL byte, the title "../" t makes loadPage read, and save
    write, the file t ".txt" of the working directory, outside the data
    directory; the write succeeds exactly when no directory has that name
    and the file is there already or its name is one the file system takes.
    The name grammar is enforced by the router alone. *)
Theorem store_functions_do_not_validate (t : string) (c : list Byte.byte)
    (σ : os.World) :
  no_slash t → no_nul t →
  let title := "../" +:+ t in
  (os.files σ !! (t +:+ ".txt") = Some (os.File c) →
     (loadPage title σ).1 = inl {| Title := title; Body := c |}) ∧
  ((save {| Title := title; Body := c |} σ).1 = None ↔
     os.files σ !! (t +:+ ".txt") ≠ Some os.Dir ∧
     (os.files σ !! (t +:+ ".txt") = None →
        String.length (t +:+ ".txt") ≤ os.NAME_MAX)) ∧
  ((save {| Title := title; Body := c |} σ).1 = None →
     os.files (save {| Title := title; Body := c |} σ).2
     = <[t +:+ ".txt" := os.File c]> (os.files σ)) ∧
  ¬ valid_name title.
Proof.
  intros Ht Hnul title. pose proof (txt_entry_like t Ht) as Hentry.
  assert (no_nul (t +:+ ".txt")) as Hnul' by (by apply no_nul_app).
  assert (save {| Title := title; Body := c |} σ
          = let σ1 := os.log (os.CallWriteFile (t +:+ ".txt")) σ in
            match os.files σ !! (t +:+ ".txt") with
            | Some os.Dir =>
                (Some (PathErr {| os.Op := "open"; os.Path := t +:+ ".txt";
                                  os.Err := os.EISDIR |}), σ1)
            | Some (os.File _) =>
                (None, {| os.files := <[t +:+ ".txt" := os.File c]> (os.files σ);
                          os.calls := os.calls σ1 |})
            | None =>
                if decide (os.NAME_MAX < String.length (t +:+ ".txt"))
                then (Some (PathErr {| os.Op := "open"; os.Path := t +:+ ".txt";
                                       os.Err := os.ENAMETOOLONG |}), σ1)
                else (None, {| os.files := <[t +:+ ".txt" := os.File c]> (os.files σ);
                               os.calls := os.calls σ1 |})
            end) as Hsave.
  { unfold save, title, mbind, IO_bind. cbn [Title Body].
    rewrite Join_up by done. unfold os.WriteFile.
    rewrite Clean_entry by done. cbn [os.files os.log].
    rewrite resolve_entry by done.
    destruct (os.files σ !! (t +:+ ".txt")) as [[]|]; [done..|].
    by destruct (decide _). }
  split_and!.
  - intros Hfile. unfold loadPage, title, mbind, IO_bind.
    rewrite Join_up by done. unfold os.ReadFile. cbn [os.files os.log].
    by rewrite resolve_entry, Hfile.
  - rewrite Hsave. cbn zeta.
    destruct (os.files σ !! (t +:+ ".txt")) as [[]|]; cbn [fst].
    + split; [done|by intros [_ ?]].
    + split; [done|by intros [? _]].
    + destruct (decide _) as [Hlong|Hlong]; cbn [fst].
      * split; [done|]. intros [_ Hle]. specialize (Hle eq_refl). lia.
      * split; [|done]. intros _. split; [done|]. intros _. lia.
  - rewrite Hsave. cbn zeta.
    destruct (os.files σ !! (t +:+ ".txt")) as [[]|]; cbn [fst snd]; [done..|].
    by destruct (decide _).
  - intros [_ Hall]. unfold title in Hall.
    change (String.list_ascii_of_string ("../" +:+ t))
      with ("."%char :: String.list_ascii_of_string ("./" +:+ t)) in Hall.
    apply Forall_cons in Hall as [Hdot _].
    unfold ascii_letter_or_digit in Hdot.
    change (nat_of_ascii ".") with 46 in Hdot. lia.
Qed.

Lemma store_functions_do_not_validate_witness :
  os.files (save {| Title := "../" +:+ "passwd"; Body := [Byte.x68] |} fresh_world).2
  = <["passwd" +:+ ".txt" := os.File [Byte.x68]]> (os.files fresh_world).
Proof.
  refine (proj1 (proj2 (proj2 (store_functions_do_not_validate "passwd" [Byte.x68]
                                 fresh_world _ _))) _).
  - by vm_compute.
  - by vm_compute.
  - by vm_compute.
Defined.

(* ===================================================================== *)
(** * Further properties of the index                                     *)
(* ===================================================================== *)

Section index_facts.
Implicit Types (n : string) (w : http.ResponseWriter) (r : http.Request)
  (σ : os.World) (fs : gmap string os.node).

Lemma renderIndexTemplate_index w pages :
  renderIndexTemplate w "index" {| Pages := pages |}
  = http.Write
      (http.Rendered
         (match pages with
          | [] => IndexEmpty "/edit/Home"
          | _ => IndexPresentation pages
          end)) w.
Proof. by destruct pages. Qed.

Lemma indexHandler_eq w r σ :
  indexHandler w r σ
  = (match (getAllPages σ).1 with
     | inl pages => renderIndexTemplate w "index" {| Pages := pages |}
     | inr err => http.Error w (error_Error err) http.StatusInternalServerError
     end, (getAllPages σ).2).
Proof.
  unfold indexHandler, mbind, IO_bind. by destruct (getAllPages σ) as [[?|?] ?].
Qed.

Lemma records_valid_insert fs n c :
  valid_name n → records_valid fs →
  records_valid (<[page_file n := os.File c]> fs).
Proof.
  intros Hv Hfs m c' Hm Hlook. destruct (decide (m = n)) as [->|Hne]; [done|].
  rewrite lookup_insert_ne in Hlook by (by intros ?%page_file_inj).
  by eapply Hfs.
Qed.

Lemma records_valid_fresh : records_valid (os.files fresh_world).
Proof.
  intros n c _ Hlook. unfold fresh_world in Hlook. cbn in Hlook.
  rewrite lookup_singleton_ne in Hlook; [done|].
  intros Heq. by apply (page_file_not_data n).
Qed.

Lemma records_valid_pages fs n :
  records_valid fs →
  n ∈ omap page_of_entry (merge_sort os.by_name (os.entries fs "data")) →
  valid_name n.
Proof. intros Hfs (Hn & c & Hc)%elem_of_pages. by eapply Hfs. Qed.

End index_facts.

(** X10. The routed handlers keep the store well-named: when every record
    is the record of a valid name, it is still so after any request served
    by makeHandler with the view, edit or save handler, and after any request
    served by the index or root handler. The store with an empty data
    directory is well-named. *)
Theorem requests_keep_records_valid
    (h : http.ResponseWriter → http.Request → string → IO http.ResponseWriter)
    (w : http.ResponseWriter) (r : http.Request) (σ : os.World) :
  h ∈ [viewHandler; editHandler; saveHandler] →
  records_valid (os.files σ) →
  records_valid (os.files (makeHandler h w r σ).2) ∧
  records_valid (os.files (indexHandler w r σ).2) ∧
  records_valid (os.files (rootHandler w r σ).2) ∧
  records_valid (os.files fresh_world).
Proof.
  intros Hh Hfs. split_and!.
  - destruct (makeHandler_cases h w r σ) as [[_ ->]|(op & n & _ & Hv & _ & ->)];
      [done|].
    pose proof (valid_name_no_slash n Hv) as Hn.
    apply elem_of_cons in Hh as [->|Hh]; [|apply elem_of_cons in Hh as [->|Hh];
      [|apply list_elem_of_singleton in Hh as ->]].
    + by rewrite viewHandler_world, loadPage_world.
    + by rewrite editHandler_world, loadPage_world.
    + rewrite saveHandler_world, save_files by done.
      destruct (decide _); [|done]. by apply records_valid_insert.
  - by rewrite indexHandler_eq, getAllPages_world.
  - unfold rootHandler. destruct (decide _); [|done].
    by rewrite indexHandler_eq, getAllPages_world.
  - apply records_valid_fresh.
Qed.

Lemma requests_keep_records_valid_witness :
  records_valid
    (os.files (makeHandler saveHandler http.NewRecorder
                 (get_request "/save/Home" {["body" := ["hello"]]}) fresh_world).2).
Proof.
  refine (proj1 (requests_keep_records_valid saveHandler http.NewRecorder
            (get_request "/save/Home" {["body" := ["hello"]]}) fresh_world _ _)).
  - rewrite !elem_of_cons. auto.
  - apply records_valid_fresh.
Defined.

(** X11. The index shows the store: when the data directory can be read,
    the index handler hands the index template the list of the names that
    have a record, each once, and the template shows the empty state with
    its link to create "Home" when there is no record and one entry per name
    otherwise, whatever the names are; when the data directory cannot be
    read it answers with a server error (status 500 on a fresh response).
    The root handler does the same on the path "/". *)
Theorem index_shows_the_store (w : http.ResponseWriter) (r : http.Request)
    (σ : os.World) :
  let listed := os.log (os.CallReadDir "data") σ in
  (os.files σ !! "data" = Some os.Dir →
     ∃ pages,
       NoDup pages ∧
       (∀ n, n ∈ pages ↔
             no_slash n ∧
             ∃ c, os.files σ !! ("data/" +:+ n +:+ ".txt") = Some (os.File c)) ∧
       indexHandler w r σ
       = (renderIndexTemplate w "index" {| Pages := pages |}, listed) ∧
       renderIndexTemplate w "index" {| Pages := pages |}
       = http.Write
           (http.Rendered
              (if decide (pages = []) then IndexEmpty "/edit/Home"
               else IndexPresentation pages)) w) ∧
  (os.files σ !! "data" ≠ Some os.Dir →
     ∃ err,
       indexHandler w r σ
       = (http.Error w (error_Error err) http.StatusInternalServerError, listed) ∧
       http.Status (indexHandler http.NewRecorder r σ).1 = Some 500) ∧
  (http.Path r = "/" → rootHandler w r σ = indexHandler w r σ).
Proof.
  intros listed. split_and!.
  - intros Hdata. rewrite indexHandler_eq, getAllPages_eq. cbn zeta.
    rewrite Hdata. cbn [fst snd]. eexists. split_and!.
    + apply NoDup_pages.
    + apply elem_of_pages.
    + done.
    + rewrite renderIndexTemplate_index. by destruct (omap _ _).
  - intros Hdata. rewrite !indexHandler_eq, getAllPages_eq. cbn zeta.
    destruct (os.files σ !! "data") as [[]|]; [|done|]; cbn [fst snd]; eauto.
  - intros Hp. unfold rootHandler. by rewrite decide_True.
Qed.

Lemma index_shows_the_store_witness :
  let σ := {| os.files := <[page_file "Home" := os.File []]> (os.files fresh_world);
              os.calls := [] |} in
  ∃ pages,
    NoDup pages ∧
    (∀ n, n ∈ pages ↔
          no_slash n ∧
          ∃ c, os.files σ !! ("data/" +:+ n +:+ ".txt") = Some (os.File c)) ∧
    indexHandler http.NewRecorder (get_request "/" ∅) σ
    = (renderIndexTemplate http.NewRecorder "index" {| Pages := pages |},
       os.log (os.CallReadDir "data") σ) ∧
    renderIndexTemplate http.NewRecorder "index" {| Pages := pages |}
    = http.Write
        (http.Rendered
           (if decide (pages = []) then IndexEmpty "/edit/Home"
            else IndexPresentation pages)) http.NewRecorder.
Proof.
  refine (proj1 (index_shows_the_store http.NewRecorder (get_request "/" ∅)
            {| os.files := <[page_file "Home" := os.File []]> (os.files fresh_world);
               os.calls := [] |}) _).
  by vm_compute.
Defined.



(* ===================================================================== *)
(** * Further properties of the link transform                            *)
(* ===================================================================== *)

Section link_output.
Implicit Types (s t name : string) (c : ascii) (k n : nat).

Lemma processLinks_eq (body : list Byte.byte) :
  processLinks body = link_scan 0 (String.string_of_list_byte body).
Proof. unfold processLinks, ReplaceAllStringFunc. by rewrite replace_loop_link. Qed.

Lemma marker_at_other c s : c ≠ "["%char → marker_at (String c s) = None.
Proof. intros Hc. cbn [marker_at]. by rewrite decide_False by (by intros [? _]). Qed.

(** A text without an opening bracket holds the start of no marker. *)
Lemma marker_inside_app_plain t s :
  str_forall (λ c, bool_decide (c ≠ "["%char)) t = true →
  marker_inside (t +:+ s) = marker_inside s.
Proof.
  induction t as [|c t IH]; [done|]. cbn [str_forall].
  intros [Hc Ht]%andb_prop. apply bool_decide_eq_true in Hc.
  rewrite str_app_cons. cbn [marker_inside].
  rewrite marker_at_other by done. rewrite IH by done.
  by rewrite bool_decide_eq_false_2 by (by intros [? ?]).
Qed.

Lemma link_to_plain name :
  valid_name name →
  str_forall (λ c, bool_decide (c ≠ "["%char)) (link_to name) = true.
Proof.
  intros [_ Hv]%valid_name_forall.
  assert (str_forall (λ c, bool_decide (c ≠ "["%char)) name = true) as Hname.
  { induction name as [|c name IH]; [done|]. cbn [str_forall] in *.
    apply andb_prop in Hv as [Hc Hv]. rewrite IH by done.
    rewrite andb_true_r. apply bool_decide_eq_true. by intros ->. }
  unfold link_to. by rewrite !str_forall_app, !Hname.
Qed.

(** The scan keeps the run of letters and digits that starts a text, and
    whether a closing bracket follows it. *)
Lemma link_scan_span s :
  span (in_class alnum_ranges) (link_scan 0 s) = span (in_class alnum_ranges) s ∧
  String.prefix "]" (str_drop (span (in_class alnum_ranges) s) (link_scan 0 s))
  = String.prefix "]" (str_drop (span (in_class alnum_ranges) s) s).
Proof.
  induction s as [|c s [IHspan IHdrop]]; [done|].
  destruct (in_class alnum_ranges c) eqn:Hc.
  - assert (c ≠ "["%char) as Hopen by (by intros ->).
    cbn [link_scan]. rewrite marker_at_other by done.
    cbn [span]. rewrite Hc. cbn [str_drop]. by rewrite IHspan.
  - cbn [span]. rewrite Hc. cbn [link_scan str_drop].
    destruct (marker_at (String c s)) as [n|] eqn:Hm.
    + assert (c = "["%char) as ->.
      { cbn [marker_at] in Hm. by destruct (decide _) as [(-> & _)|]. }
      unfold linkRepl. str_norm. cbn [span str_drop String.prefix].
      change (in_class alnum_ranges "<") with false. cbv iota.
      by destruct (ascii_dec "]" "<"), (ascii_dec "]" "[").
    + cbn [span]. rewrite Hc. split; [done|]. cbn [String.prefix].
      destruct (ascii_dec "]" c); [|done]. by rewrite !str_prefix_nil.
Qed.

Lemma marker_at_link_scan c s :
  marker_at (String c (link_scan 0 s)) = marker_at (String c s).
Proof.
  cbn [marker_at]. destruct (link_scan_span s) as [-> ->]. done.
Qed.

(** The output of the scan holds no marker. *)
Lemma marker_inside_link_scan k s : marker_inside (link_scan k s) = false.
Proof.
  revert k. induction s as [|c s IH]; intros k; [done|].
  destruct k as [|k]; cbn [link_scan]; [|apply IH].
  destruct (marker_at (String c s)) as [n|] eqn:Hm.
  - destruct (marker_at_inv _ _ Hm) as (name & post & Hv & Hlen & Hs).
    rewrite Hs at 1. rewrite <-Hlen, str_take_marker, linkRepl_marker.
    rewrite marker_inside_app_plain by (by apply link_to_plain). apply IH.
  - cbn [marker_inside]. rewrite marker_at_link_scan, Hm, IH.
    by rewrite bool_decide_eq_false_2 by (by intros [? ?]).
Qed.

End link_output.

(** X13. The link transform is applied once and for all: for every body,
    the output of processLinks holds no link marker, so transforming the
    output again changes nothing. *)
Theorem link_transform_is_idempotent (body : list Byte.byte) :
  let out := processLinks body in
  ¬ has_marker out ∧
  processLinks (String.list_byte_of_string out) = out.
Proof.
  intros out.
  assert (¬ has_marker out) as Hno.
  { rewrite has_marker_inside. unfold out.
    by rewrite processLinks_eq, marker_inside_link_scan. }
  split; [done|]. rewrite processLinks_scan. by apply link_scan_plain.
Qed.

(* ===================================================================== *)
(** * The order of the listing                                            *)
(* ===================================================================== *)

Section listing_order.
Implicit Types (a b s : string) (c : ascii) (e : os.DirEntry).

Global Instance by_name_total : Total os.by_name.
Proof. intros e1 e2. unfold os.by_name. apply (total String.le). Qed.

Global Instance by_name_trans : Transitive os.by_name.
Proof. intros e1 e2 e3. unfold os.by_name. apply (transitivity (R := String.le)). Qed.

Lemma StronglySorted_omap {A B} (R1 : relation A) (R2 : relation B)
    (f : A → option B) (l : list A) :
  (∀ x y u v, x ∈ l → y ∈ l → R1 x y → f x = Some u → f y = Some v → R2 u v) →
  StronglySorted R1 l → StronglySorted R2 (omap f l).
Proof.
  intros Hmono. induction 1 as [|x l Hl IH Hx]; [constructor|].
  assert (StronglySorted R2 (omap f l)) as IH'.
  { apply IH. intros ???? ??. apply Hmono; set_solver. }
  cbn. destruct (f x) as [u|] eqn:Hfx; [|done].
  constructor; [done|]. apply Forall_forall.
  intros v (y & Hy & Hfy)%list_elem_of_omap.
  apply (Hmono x y); [set_solver..| |done|done].
  by eapply Forall_forall in Hx.
Qed.

(** Letters and digits come after the dot of the suffix. *)
Lemma alnum_after_dot c :
  in_class alnum_ranges c = true →
  Ascii.compare "." c = Lt ∧ Ascii.compare c "." = Gt.
Proof.
  intros Hc%in_class_alnum. unfold ascii_letter_or_digit in Hc.
  unfold nat_of_ascii in Hc. unfold Ascii.compare.
  change (N_of_ascii ".") with 46%N.
  rewrite N.compare_lt_iff, N.compare_gt_iff. lia.
Qed.

(** Between names of letters and digits, the suffix decides nothing. *)
Lemma compare_txt a b :
  str_forall (in_class alnum_ranges) a = true →
  str_forall (in_class alnum_ranges) b = true →
  String.compare (a +:+ ".txt") (b +:+ ".txt") = String.compare a b.
Proof.
  revert b. induction a as [|c a IH]; intros [|d b] Ha Hb;
    cbn [str_forall] in *; str_norm.
  - done.
  - apply andb_prop in Hb as [Hd _]. cbn [String.compare].
    by destruct (alnum_after_dot d Hd) as [-> _].
  - apply andb_prop in Ha as [Hc _]. cbn [String.compare].
    by destruct (alnum_after_dot c Hc) as [_ ->].
  - apply andb_prop in Ha as [_ Ha]. apply andb_prop in Hb as [_ Hb].
    cbn [String.compare]. by rewrite IH.
Qed.

Lemma le_txt a b :
  valid_name a → valid_name b →
  (a +:+ ".txt" ≤ b +:+ ".txt")%string → (a ≤ b)%string.
Proof.
  intros [_ Ha]%valid_name_forall [_ Hb]%valid_name_forall.
  unfold String.le, String.leb. by rewrite compare_txt.
Qed.

Lemma pages_sorted (fs : gmap string os.node) :
  records_valid fs →
  StronglySorted String.le
    (omap page_of_entry (merge_sort os.by_name (os.entries fs "data"))).
Proof.
  intros Hfs.
  apply (StronglySorted_omap os.by_name); [|apply StronglySorted_merge_sort; apply _].
  intros e1 e2 a b He1 He2 Hle Ha Hb.
  pose proof Ha as [_ H1]%page_of_entry_Some.
  pose proof Hb as [_ H2]%page_of_entry_Some.
  unfold os.by_name in Hle. rewrite H1, H2 in Hle.
  apply le_txt; [| |done].
  - apply (records_valid_pages fs); [done|]. apply list_elem_of_omap. by exists e1.
  - apply (records_valid_pages fs); [done|]. apply list_elem_of_omap. by exists e2.
Qed.

End listing_order.
(** X14. The listing is in the order of the names: when every record is the
    record of a valid name and the data directory can be read, the names that
    getAllPages returns are sorted, each one at most every name after it.
    The directory is read in the order of the file names, and between names
    of letters and digits the ".txt" that is cut off decides nothing. *)
Theorem listing_is_sorted (σ : os.World) (pages : list string) :
  records_valid (os.files σ) →
  (getAllPages σ).1 = inl pages →
  StronglySorted String.le pages.
Proof.
  intros Hfs Hpages. rewrite getAllPages_eq in Hpages. cbn zeta in Hpages.
  destruct (os.files σ !! "data") as [[]|]; [done| |done].
  cbn in Hpages. injection Hpages as <-. by apply pages_sorted.
Qed.

Lemma listing_is_sorted_witness :
  StronglySorted String.le ["Home"; "Zoo"; "apple"].
Proof.
  refine (listing_is_sorted
    {| os.files := <[page_file "apple" := os.File []]>
                     (<[page_file "Zoo" := os.File []]>
                        (<[page_file "Home" := os.File []]> (os.files fresh_world)));
       os.calls := [] |} _ _ _).
  - do 3 (apply records_valid_insert;
          [apply (bool_decide_unpack _); by vm_compute|]).
    apply records_valid_fresh.
  - by vm_compute.
Defined.

(** The hypothesis of the order is needed: with a record whose name is not
    of letters and digits only, saved past the router, the listing can be out
    of order. *)
Lemma listing_order_needs_valid_names :
  ∃ σ pages, (getAllPages σ).1 = inl pages ∧ ¬ StronglySorted String.le pages.
Proof.
  exists {| os.files := {[ "data" := os.Dir;
                           "data/a-.txt" := os.File [];
                           "data/a.txt" := os.File [] ]};
            os.calls := [] |}, ["a-"; "a"].
  split; [by vm_compute|].
  intros Hs. inversion Hs as [|?? _ Hall]. by inversion Hall.
Qed.

(* ===================================================================== *)
(** * Startup and the requests that follow                                *)
(* ===================================================================== *)

Section startup_facts.
Implicit Types (fs : gmap string os.node) (σ : os.World) (h : Handler)
  (w : http.ResponseWriter) (r : http.Request).

(** What startup does to the store, by what is at "data". *)
Lemma MkdirAll_savePath perm fs :
  MkdirAll savePath perm fs
  = match fs !! "data" with
    | Some os.Dir => (None, fs)
    | Some (os.File _) =>
        (Some {| os.Op := "mkdir"; os.Path := "data"; os.Err := os.ENOTDIR |}, fs)
    | None => (None, <["data" := os.Dir]> fs)
    end.
Proof.
  unfold MkdirAll, savePath. cbn [String.length MkdirAll_from].
  change (os.stat fs "data") with (fs !! "data").
  destruct (fs !! "data") as [[]|]; [done..|].
  by change (os.stat fs (os.parent "data")) with (Some os.Dir).
Qed.

Lemma save_keeps_data n c σ :
  no_slash n →
  os.files (save {| Title := n; Body := c |} σ).2 !! "data" = os.files σ !! "data".
Proof.
  intros Hn. rewrite save_files by done. destruct (decide _); [|done].
  apply lookup_insert_ne, page_file_not_data.
Qed.

(** No registered handler touches the data directory itself. *)
Lemma registered_keeps_data h w r σ :
  h ∈ registered → os.files (h w r σ).2 !! "data" = os.files σ !! "data".
Proof.
  unfold registered. rewrite !elem_of_cons, elem_of_nil.
  assert (∀ fn,
    (∀ w r n σ, valid_name n →
       os.files (fn w r n σ).2 !! "data" = os.files σ !! "data") →
    os.files (makeHandler fn w r σ).2 !! "data" = os.files σ !! "data") as Hmk.
  { intros fn Hfn.
    destruct (makeHandler_cases fn w r σ) as [[_ ->]|(op & n & _ & Hv & _ & ->)];
      [done|by apply Hfn]. }
  intros [->|[->|[->|[->|[->|[]]]]]].
  - unfold rootHandler. destruct (decide _); [|done].
    by rewrite indexHandler_eq, getAllPages_world.
  - by rewrite indexHandler_eq, getAllPages_world.
  - apply Hmk. intros. by rewrite viewHandler_world, loadPage_world.
  - apply Hmk. intros. by rewrite editHandler_world, loadPage_world.
  - apply Hmk. intros ??? σ' Hv. rewrite saveHandler_world.
    by apply save_keeps_data, valid_name_no_slash.
Qed.

Lemma serve_all_keeps_data reqs σ :
  Forall (λ q, q.1.1 ∈ registered) reqs →
  os.files (serve_all reqs σ) !! "data" = os.files σ !! "data".
Proof.
  unfold serve_all. intros Hreqs. revert σ.
  induction Hreqs as [|[[h w] r] reqs Hh _ IH]; intros σ; [done|].
  cbn [foldl]. rewrite IH. by apply registered_keeps_data.
Qed.

Lemma registered_keeps_valid h w r σ :
  h ∈ registered → records_valid (os.files σ) →
  records_valid (os.files (h w r σ).2).
Proof.
  unfold registered. rewrite !elem_of_cons, elem_of_nil.
  assert (∀ fn,
    (∀ w r n σ, valid_name n → records_valid (os.files σ) →
       records_valid (os.files (fn w r n σ).2)) →
    records_valid (os.files σ) →
    records_valid (os.files (makeHandler fn w r σ).2)) as Hmk.
  { intros fn Hfn Hfs.
    destruct (makeHandler_cases fn w r σ) as [[_ ->]|(op & n & _ & Hv & _ & ->)];
      [done|by apply Hfn]. }
  intros [->|[->|[->|[->|[->|[]]]]]] Hfs.
  - unfold rootHandler. destruct (decide _); [|done].
    by rewrite indexHandler_eq, getAllPages_world.
  - by rewrite indexHandler_eq, getAllPages_world.
  - apply Hmk; [|done]. intros. by rewrite viewHandler_world, loadPage_world.
  - apply Hmk; [|done]. intros. by rewrite editHandler_world, loadPage_world.
  - apply Hmk; [|done]. intros ??? σ' Hv Hfs'.
    rewrite saveHandler_world, save_files by by apply valid_name_no_slash.
    destruct (decide _); [|done]. by apply records_valid_insert.
Qed.

Lemma serve_all_keeps_valid reqs σ :
  Forall (λ q, q.1.1 ∈ registered) reqs →
  records_valid (os.files σ) → records_valid (os.files (serve_all reqs σ)).
Proof.
  unfold serve_all. intros Hreqs. revert σ.
  induction Hreqs as [|[[h w] r] reqs Hh _ IH]; intros σ Hfs; [done|].
  cbn [foldl]. apply IH. by apply registered_keeps_valid.
Qed.

Lemma records_valid_mkdir fs :
  records_valid fs → records_valid (<["data" := os.Dir]> fs).
Proof.
  intros Hfs n c Hn Hlook. rewrite lookup_insert_ne in Hlook; [by eapply Hfs|].
  intros Heq. by apply (page_file_not_data n).
Qed.

End startup_facts.

(** X15. Startup makes the store, and no request unmakes it. MkdirAll on
    "data" fails exactly when a regular file is at "data", with the error
    "mkdir data: not a directory" and the files as they were. When it
    succeeds, it changes nothing but "data"; and after any requests served
    one after the other by the registered handlers, "data" is still a
    directory, so the index handler renders the index template and does not
    answer with the error of the listing; and when every record had a valid
    name at startup, every record still has one. *)
Theorem startup_store_is_kept (fs0 fs1 : gmap string os.node)
    (cs : list os.call)
    (reqs : list (Handler * http.ResponseWriter * http.Request)) :
  ((∃ err, (MkdirAll savePath perm_0755 fs0).1 = Some err) ↔
   (∃ c, fs0 !! "data" = Some (os.File c))) ∧
  (∀ err, (MkdirAll savePath perm_0755 fs0).1 = Some err →
     os.Error err = "mkdir data: not a directory" ∧
     (MkdirAll savePath perm_0755 fs0).2 = fs0) ∧
  (MkdirAll savePath perm_0755 fs0 = (None, fs1) →
   Forall (λ q, q.1.1 ∈ registered) reqs →
   let σ := serve_all reqs {| os.files := fs1; os.calls := cs |} in
   (∀ k, k ≠ "data" → fs1 !! k = fs0 !! k) ∧
   MkdirAll savePath perm_0755 fs1 = (None, fs1) ∧
   os.files σ !! "data" = Some os.Dir ∧
   (∀ w r, ∃ pages,
      (indexHandler w r σ).1 = renderIndexTemplate w "index" {| Pages := pages |}) ∧
   (records_valid fs0 → records_valid (os.files σ))).
Proof.
  rewrite MkdirAll_savePath. split_and!.
  - destruct (fs0 !! "data") as [[c|]|]; cbn; split;
      intros [? ?]; try done; by eexists.
  - intros err. destruct (fs0 !! "data") as [[c|]|]; cbn; [|done..].
    by intros [= <-].
  - intros Hstart Hreqs σ.
    assert (fs1 !! "data" = Some os.Dir ∧ (∀ k, k ≠ "data" → fs1 !! k = fs0 !! k) ∧
            (records_valid fs0 → records_valid fs1)) as (Hdir & Hother & Hvalid).
    { destruct (fs0 !! "data") as [[c|]|] eqn:Hdata; [done| |].
      - by injection Hstart as <-.
      - injection Hstart as <-. split_and!.
        + apply lookup_insert_eq.
        + intros k Hk. by apply lookup_insert_ne.
        + apply records_valid_mkdir. }
    assert (os.files σ !! "data" = Some os.Dir) as Hσ.
    { unfold σ. by rewrite serve_all_keeps_data. }
    split_and!; [done| |done| |].
    + by rewrite MkdirAll_savePath, Hdir.
    + intros w r. rewrite indexHandler_eq, getAllPages_eq. cbn zeta.
      rewrite Hσ. by eexists.
    + intros Hfs. apply serve_all_keeps_valid; [done|]. by apply Hvalid.
Qed.

Lemma startup_store_is_kept_witness :
  os.files
    (serve_all
       [(makeHandler saveHandler, http.NewRecorder,
         get_request "/save/Home" {["body" := ["hello"]]});
        (rootHandler, http.NewRecorder, get_request "/" ∅)]
       {| os.files := {["data" := os.Dir]}; os.calls := [] |}) !! "data"
  = Some os.Dir.
Proof.
  refine (proj1 (proj2 (proj2 (proj2 (proj2 (startup_store_is_kept ∅ _ []
    [(makeHandler saveHandler, http.NewRecorder,
      get_request "/save/Home" {["body" := ["hello"]]});
     (rootHandler, http.NewRecorder, get_request "/" ∅)])) _ _)))).
  - by vm_compute.
  - unfold registered. repeat constructor; cbn; rewrite !elem_of_cons; auto 10.
Defined.

Section logging_facts.
Implicit Types (r : http.Request) (op n : string).

(** A route is neither below "/static/" nor the icon. *)
Lemma route_is_logged op n :
  op ∈ operations →
  String.prefix "/static/" ("/" +:+ op +:+ "/" +:+ n) = false ∧
  "/" +:+ op +:+ "/" +:+ n ≠ "/favicon.ico".
Proof.
  intros Hop. case_operation Hop; str_norm; (split; [done|]); by intros [=].
Qed.

End logging_facts.

(** X16. Every request for a page is logged: a request that the logging
    middleware passes on without a line, one for a static file or for the
    icon, has a path that is no route, is answered "not found" by every
    handler behind makeHandler without a call on the store, and is neither
    the root nor the index. *)
Theorem unlogged_requests_are_no_pages
    (fn : http.ResponseWriter → http.Request → string → IO http.ResponseWriter)
    (w : http.ResponseWriter) (r : http.Request) (σ : os.World) :
  loggedMux_line r = None →
  ¬ is_route (http.Path r) ∧
  makeHandler fn w r σ = (http.NotFound w r, σ) ∧
  http.Path r ≠ "/" ∧ http.Path r ≠ "/index".
Proof.
  unfold loggedMux_line. intros Hline.
  assert (¬ is_route (http.Path r)) as Hno.
  { intros (op & n & Hop & _ & Hp). rewrite Hp in Hline.
    destruct (route_is_logged op n Hop) as [Hpre Hne].
    by rewrite Hpre, bool_decide_true in Hline. }
  split_and!; [done| | |].
  - by destruct (makeHandler_cases fn w r σ) as [[_ ?]|(op & n & ? & ? & ? & _)];
      [|destruct Hno; exists op, n].
  - intros Hp. by rewrite Hp in Hline.
  - intros Hp. by rewrite Hp in Hline.
Qed.

Lemma unlogged_requests_are_no_pages_witness :
  makeHandler viewHandler http.NewRecorder (get_request "/favicon.ico" ∅) fresh_world
  = (http.NotFound http.NewRecorder (get_request "/favicon.ico" ∅), fresh_world).
Proof.
  refine (proj1 (proj2 (unlogged_requests_are_no_pages viewHandler http.NewRecorder
            (get_request "/favicon.ico" ∅) fresh_world _))).
  by vm_compute.
Defined.

(* ===================================================================== *)
(** * The method of a request                                             *)
(* ===================================================================== *)

Section method_facts.
Implicit Types (w : http.ResponseWriter) (r : http.Request) (σ : os.World)
  (m url title : string).

Lemma Redirect_method w r m url code :
  let r' := {| http.Method := m; http.Path := http.Path r;
               http.Form := http.Form r |} in
  http.Status (http.Redirect w r' url code)
  = http.Status (http.Redirect w r url code) ∧
  http.Location (http.Redirect w r' url code)
  = http.Location (http.Redirect w r url code).
Proof. unfold http.Redirect. cbn. by repeat destruct (decide _). Qed.

Lemma viewHandler_method w r m title σ :
  let r' := {| http.Method := m; http.Path := http.Path r;
               http.Form := http.Form r |} in
  (viewHandler w r' title σ).2 = (viewHandler w r title σ).2 ∧
  http.Status (viewHandler w r' title σ).1
  = http.Status (viewHandler w r title σ).1 ∧
  http.Location (viewHandler w r' title σ).1
  = http.Location (viewHandler w r title σ).1.
Proof.
  intros r'. unfold viewHandler, mbind, IO_bind.
  destruct (loadPage title σ) as [[p|err] σ']; [done|].
  split; [done|]. apply Redirect_method.
Qed.

Lemma saveHandler_method w r m title σ :
  let r' := {| http.Method := m; http.Path := http.Path r;
               http.Form := http.Form r |} in
  (saveHandler w r' title σ).2 = (saveHandler w r title σ).2 ∧
  http.Status (saveHandler w r' title σ).1
  = http.Status (saveHandler w r title σ).1 ∧
  http.Location (saveHandler w r' title σ).1
  = http.Location (saveHandler w r title σ).1.
Proof.
  intros r'. unfold saveHandler, mbind, IO_bind.
  change (http.FormValue r' "body") with (http.FormValue r "body").
  destruct (save _ σ) as [[err|] σ']; [done|].
  split; [done|]. apply Redirect_method.
Qed.

Lemma makeHandler_method fn w r m σ :
  let r' := {| http.Method := m; http.Path := http.Path r;
               http.Form := http.Form r |} in
  (∀ title,
     (fn w r' title σ).2 = (fn w r title σ).2 ∧
     http.Status (fn w r' title σ).1 = http.Status (fn w r title σ).1 ∧
     http.Location (fn w r' title σ).1 = http.Location (fn w r title σ).1) →
  (makeHandler fn w r' σ).2 = (makeHandler fn w r σ).2 ∧
  http.Status (makeHandler fn w r' σ).1 = http.Status (makeHandler fn w r σ).1 ∧
  http.Location (makeHandler fn w r' σ).1
  = http.Location (makeHandler fn w r σ).1.
Proof.
  intros r' Hfn. unfold makeHandler. cbn [http.Path r'].
  by destruct (FindStringSubmatch validPath (http.Path r)).
Qed.

End method_facts.

(** X17. No handler looks at the method of a request: sent with any other
    method, a request to a registered handler leaves the same world behind,
    files and record of calls, and gets the same status and the same Location
    header. So a request to the save route writes the record whatever its
    method is. What is written to the body is not compared: the library
    writes the short note of a redirect for GET only. *)
Theorem method_is_not_checked (h : Handler) (w : http.ResponseWriter)
    (r : http.Request) (m : string) (σ : os.World) :
  h ∈ registered →
  let r' := {| http.Method := m; http.Path := http.Path r;
               http.Form := http.Form r |} in
  (h w r' σ).2 = (h w r σ).2 ∧
  http.Status (h w r' σ).1 = http.Status (h w r σ).1 ∧
  http.Location (h w r' σ).1 = http.Location (h w r σ).1.
Proof.
  unfold registered. rewrite !elem_of_cons, elem_of_nil.
  intros [->|[->|[->|[->|[->|[]]]]]].
  - unfold rootHandler. cbn [http.Path]. by destruct (decide _).
  - done.
  - apply makeHandler_method. intros title. apply viewHandler_method.
  - by apply makeHandler_method.
  - apply makeHandler_method. intros title. apply saveHandler_method.
Qed.

Lemma method_is_not_checked_witness :
  (makeHandler saveHandler http.NewRecorder
     (get_request "/save/Home" {["body" := ["hello"]]}) fresh_world).2
  = (makeHandler saveHandler http.NewRecorder
       {| http.Method := "POST"; http.Path := "/save/Home";
          http.Form := {["body" := ["hello"]]} |} fresh_world).2.
Proof.
  refine (proj1 (method_is_not_checked (makeHandler saveHandler) http.NewRecorder
            {| http.Method := "POST"; http.Path := "/save/Home";
               http.Form := {["body" := ["hello"]]} |} "GET" fresh_world _)).
  unfold registered. rewrite !elem_of_cons. auto 10.
Defined.
